(** * Shallow embedding of the task manager of radiosonde_auto_rx (auto_rx.py)

    The scheduler of [auto_rx.py] keeps three module-level dictionaries:
    [autorx.sdr_list] (device pool), [autorx.task_list] (task registry) and
    [temporary_block_list] (frequency -> time the block began), plus the
    [scan_results] queue.  Python dictionaries iterate in insertion order and
    compare keys with [==], so they are modelled as association lists with an
    equality function; assigning to an existing key keeps its position and its
    original key object, [pop] removes the entry.

    Python exceptions are modelled by a small exception-and-state monad: a
    raised exception carries the state reached at the raise (Python keeps the
    mutations made before it).  Iteration over a [dict.keys()] view follows
    Python 3: every call to the iterator's [next] first checks that the size
    of the dictionary is unchanged and raises [RuntimeError] otherwise.

    Numbers that Python keeps as [float] (frequencies, times, positions) are
    taken as exact rationals [Q]; a Python [int] frequency is kept apart from
    a [float] one because [start_decoder] tests [type(_key) == int]. *)

From Stdlib Require Import Arith QArith Qabs Lqa Lia List Bool String Ascii.
Import ListNotations.

Open Scope Q_scope.

(** ** Python values *)

(** A Python number used as a frequency: an [int] or a [float]. *)
Inductive pynum : Type :=
| PyInt (z : Z)
| PyFloat (q : Q).

Definition num_val (n : pynum) : Q :=
  match n with
  | PyInt z => inject_Z z
  | PyFloat q => q
  end.

(** [==] between two Python numbers compares their values. *)
Definition num_eqb (a b : pynum) : bool := Qeq_bool (num_val a) (num_val b).

(** Strict comparison [a < b] on Python floats. *)
Definition Qltb (a b : Q) : bool := negb (Qle_bool b a).

(** Keys of [autorx.task_list]: the string ['SCAN'] or a decoder frequency. *)
Inductive key : Type :=
| KScan
| KFreq (f : pynum).

Definition key_eqb (a b : key) : bool :=
  match a, b with
  | KScan, KScan => true
  | KFreq x, KFreq y => num_eqb x y
  | _, _ => false
  end.

(** [type(_key) == int] *)
Definition key_is_int (k : key) : bool :=
  match k with
  | KFreq (PyInt _) => true
  | _ => false
  end.

(** ** Python dictionaries as ordered association lists *)

Section Dict.
Context {K V : Type} (eqb : K -> K -> bool).

(** [d[k]] (None: [KeyError]) and [k in d]. *)
Fixpoint d_get (k : K) (d : list (K * V)) : option V :=
  match d with
  | [] => None
  | (k', v) :: d' => if eqb k' k then Some v else d_get k d'
  end.

Definition d_mem (k : K) (d : list (K * V)) : bool :=
  match d_get k d with Some _ => true | None => false end.

(** [d[k] = v]: an existing key keeps its place and its key object. *)
Fixpoint d_set (k : K) (v : V) (d : list (K * V)) : list (K * V) :=
  match d with
  | [] => [(k, v)]
  | (k', v') :: d' => if eqb k' k then (k', v) :: d' else (k', v') :: d_set k v d'
  end.

(** [d.pop(k)] on a key that is present. *)
Fixpoint d_del (k : K) (d : list (K * V)) : list (K * V) :=
  match d with
  | [] => []
  | (k', v') :: d' => if eqb k' k then d' else (k', v') :: d_del k d'
  end.
End Dict.

(** ** Worker objects (SondeScanner, SondeDecoder)

    The workers are external threads.  The scheduler only reads their
    [running()] result, their [exit_state] attribute and, for decoders, their
    [sonde_type] attribute; [None] stands for a query that raises. *)

Inductive task_kind : Type :=
| Scanner
| Decoder (sonde_type : string) (sonde_freq : pynum).

Record task : Type := mkTask {
  t_kind : task_kind;
  t_running : option bool;
  t_exit_state : option string
}.

(** A freshly constructed worker is running; its exit state is written by
    the worker thread later on. *)
Definition new_worker (k : task_kind) : task := mkTask k (Some true) (Some "OK"%string).

(** [task.sonde_type]: only a decoder has the attribute. *)
Definition task_sonde_type (t : task) : option string :=
  match t_kind t with
  | Decoder s _ => Some s
  | Scanner => None
  end.

(** ** Scheduler state *)

(** An entry of [autorx.sdr_list]. *)
Record sdr : Type := mkSdr {
  in_use : bool;
  sdr_task : option task;
  gain : Q;
  ppm : Q;
  bias : bool
}.

(** An entry of [autorx.task_list]: [{'device_idx': ..., 'task': ...}]. *)
Record entry : Type := mkEntry {
  device_idx : string;
  e_task : option task
}.

Record state : Type := mkState {
  sdr_list : list (string * sdr);
  task_list : list (key * entry);
  temporary_block_list : list (pynum * Q);
  scan_results : list (list (pynum * string))
}.

(** The part of the global [config] dictionary the scheduler reads. *)
Record config : Type := mkConfig {
  temporary_block_time : Q;   (* minutes *)
  decoder_spacing_limit : Q;  (* Hz *)
  max_altitude : Q;
  station_lat : Q;
  station_lon : Q;
  station_alt : Q;
  max_radius_km : Q;
  experimental_decoders : list (string * bool)
}.

Definition set_sdr_list (s : list (string * sdr)) (st : state) : state :=
  mkState s (task_list st) (temporary_block_list st) (scan_results st).
Definition set_task_list (t : list (key * entry)) (st : state) : state :=
  mkState (sdr_list st) t (temporary_block_list st) (scan_results st).
Definition set_block_list (b : list (pynum * Q)) (st : state) : state :=
  mkState (sdr_list st) (task_list st) b (scan_results st).
Definition set_scan_results (q : list (list (pynum * string))) (st : state) : state :=
  mkState (sdr_list st) (task_list st) (temporary_block_list st) q.

(** ** Exceptions and the scheduler monad *)

Inductive exn : Type :=
| KeyError
| NameError
| RuntimeError
| AttributeError
| TypeError.

Inductive result (A : Type) : Type :=
| Ret (a : A) (st : state)
| Raise (e : exn) (st : state).
Arguments Ret {A} a st.
Arguments Raise {A} e st.

Definition M (A : Type) : Type := state -> result A.

Definition ret {A} (a : A) : M A := fun st => Ret a st.
Definition raise {A} (e : exn) : M A := fun st => Raise e st.
Definition bind {A B} (m : M A) (k : A -> M B) : M B :=
  fun st => match m st with
            | Ret a st' => k a st'
            | Raise e st' => Raise e st'
            end.
Definition get : M state := fun st => Ret st st.
Definition modify (f : state -> state) : M unit := fun st => Ret tt (f st).

Notation "x <- m ;; k" := (bind m (fun x => k)) (at level 61, m at next level, right associativity).
Notation "m ;; k" := (bind m (fun _ => k)) (at level 61, right associativity).

Definition state_of {A} (r : result A) : state :=
  match r with Ret _ st => st | Raise _ st => st end.

(** [sdr_list[idx][field] = value]: [KeyError] when [idx] is not a device. *)
Fixpoint sdr_update (idx : string) (f : sdr -> sdr) (l : list (string * sdr))
  : option (list (string * sdr)) :=
  match l with
  | [] => None
  | (i, s) :: l' =>
      if String.eqb i idx then Some ((i, f s) :: l')
      else option_map (cons (i, s)) (sdr_update idx f l')
  end.

Definition set_in_use (b : bool) (s : sdr) : sdr := mkSdr b (sdr_task s) (gain s) (ppm s) (bias s).
Definition set_sdr_task (t : option task) (s : sdr) : sdr := mkSdr (in_use s) t (gain s) (ppm s) (bias s).

Definition update_sdr (idx : string) (f : sdr -> sdr) : M unit :=
  fun st => match sdr_update idx f (sdr_list st) with
            | Some l => Ret tt (set_sdr_list l st)
            | None => Raise KeyError st
            end.

(** ** The task manager (auto_rx.py, lines 74-357)

    [VALID_SONDE_TYPES] and [DRIFTY_SONDE_TYPES] are imported from
    [autorx.decode]; they are left as parameters.  [cfg] is the global
    [config] dictionary and [now] the value of [time.time()]. *)

Section Scheduler.
Variables VALID_SONDE_TYPES DRIFTY_SONDE_TYPES : list string.
Variable cfg : config.

Definition str_in (s : string) (l : list string) : bool := existsb (String.eqb s) l.

(** [config['temporary_block_time']*60]: the block time in seconds. *)
Definition block_ttl : Q := temporary_block_time cfg * 60.

(** The first device of [autorx.sdr_list] (in key order) not in use. *)
Fixpoint first_free (l : list (string * sdr)) : option string :=
  match l with
  | [] => None
  | (idx, s) :: l' => if in_use s then first_free l' else Some idx
  end.

(** [allocate_sdr(check_only)] *)
Definition allocate_sdr (check_only : bool) : M (option string) :=
  st <- get ;;
  match first_free (sdr_list st) with
  | None => ret None
  | Some idx =>
      if check_only then ret (Some idx)
      else update_sdr idx (set_in_use true) ;; ret (Some idx)
  end.

(** [start_scanner()] *)
Definition start_scanner : M unit :=
  st <- get ;;
  if d_mem key_eqb KScan (task_list st) then ret tt
  else
    dev <- allocate_sdr false ;;
    match dev with
    | None => ret tt
    | Some idx =>
        modify (fun st => set_task_list (d_set key_eqb KScan (mkEntry idx None) (task_list st)) st) ;;
        let t := new_worker Scanner in
        modify (fun st => set_task_list (d_set key_eqb KScan (mkEntry idx (Some t)) (task_list st)) st) ;;
        update_sdr idx (set_sdr_task (Some t))
    end.

(** [stop_scanner()] *)
Definition stop_scanner : M unit :=
  st <- get ;;
  match d_get key_eqb KScan (task_list st) with
  | None => ret tt
  | Some e =>
      match e_task e with
      | None => raise AttributeError          (* None.stop() *)
      | Some _ =>
          update_sdr (device_idx e) (set_in_use false) ;;
          update_sdr (device_idx e) (set_sdr_task None) ;;
          modify (fun st => set_task_list (d_del key_eqb KScan (task_list st)) st)
      end
  end.

(** The spacing guard of [start_decoder] (lines 199-212): [true] when the
    loop returns early.  The loop does not mutate [autorx.task_list], so
    the iterator's size check never fails and is left out. *)
Fixpoint spacing_loop (freq : pynum) (sonde_type : string) (ks : list key) : M bool :=
  match ks with
  | [] => ret false
  | KFreq (PyInt z) as k :: ks' =>
      st <- get ;;
      match d_get key_eqb k (task_list st) with
      | None => raise KeyError
      | Some e =>
          match e_task e with
          | None => raise AttributeError
          | Some t =>
              match task_sonde_type t with
              | None => raise AttributeError
              | Some s =>
                  if str_in s DRIFTY_SONDE_TYPES && String.eqb s sonde_type then
                    if Qltb (Qabs (inject_Z z - num_val freq)) (decoder_spacing_limit cfg)
                    then ret true
                    else spacing_loop freq sonde_type ks'
                  else spacing_loop freq sonde_type ks'
              end
          end
      end
  | _ :: ks' => spacing_loop freq sonde_type ks'
  end.

(** [start_decoder], from the spacing guard on (lines 197-251). *)
Definition start_decoder_rest (freq : pynum) (sonde_type : string) : M unit :=
  st <- get ;;
  conflict <- spacing_loop freq sonde_type (map fst (task_list st)) ;;
  if conflict then ret tt
  else
    dev <- allocate_sdr false ;;
    match dev with
    | None => ret tt
    | Some idx =>
        modify (fun st => set_task_list (d_set key_eqb (KFreq freq) (mkEntry idx None) (task_list st)) st) ;;
        update_sdr idx (set_in_use true) ;;
        (* experimental_decoder = config['experimental_decoders'][sonde_type] *)
        match d_get String.eqb sonde_type (experimental_decoders cfg) with
        | None => raise KeyError
        | Some _ =>
            let t := new_worker (Decoder sonde_type freq) in
            modify (fun st => set_task_list (d_set key_eqb (KFreq freq) (mkEntry idx (Some t)) (task_list st)) st) ;;
            update_sdr idx (set_sdr_task (Some t))
        end
    end.

(** [start_decoder(freq, sonde_type)]: the block-list check (lines
    185-194), then the rest. *)
Definition start_decoder (now : Q) (freq : pynum) (sonde_type : string) : M unit :=
  st <- get ;;
  match d_get num_eqb freq (temporary_block_list st) with
  | Some began =>
      if Qltb (now - block_ttl) began then ret tt
      else
        modify (fun st => set_block_list (d_del num_eqb freq (temporary_block_list st)) st) ;;
        start_decoder_rest freq sonde_type
  | None => start_decoder_rest freq sonde_type
  end.

(** [_type[1:]] when [_type.startswith('-')]. *)
Definition strip_inverted (ty : string) : string :=
  match ty with
  | String c rest => if Ascii.eqb c "-"%char then rest else ty
  | EmptyString => ty
  end.

(** The loop over one batch of detections in [handle_scan_results]. The
    second [allocate_sdr(check_only=True)] of the [elif] sees the same
    pool as the first one and is not repeated. *)
Fixpoint handle_batch (now : Q) (batch : list (pynum * string)) : M unit :=
  match batch with
  | [] => ret tt
  | (f, ty) :: rest =>
      st <- get ;;
      if d_mem key_eqb (KFreq f) (task_list st) then handle_batch now rest
      else if negb (str_in (strip_inverted ty) VALID_SONDE_TYPES) then handle_batch now rest
      else
        free <- allocate_sdr true ;;
        (match free with
         | Some _ => start_decoder now f ty
         | None =>
             st <- get ;;
             if d_mem key_eqb KScan (task_list st)
             then stop_scanner ;; start_decoder now f ty
             else ret tt
         end) ;;
        handle_batch now rest
  end.

(** [handle_scan_results()]: pop at most one batch from the queue. *)
Definition handle_scan_results (now : Q) : M unit :=
  st <- get ;;
  match scan_results st with
  | [] => ret tt
  | batch :: q => modify (set_scan_results q) ;; handle_batch now batch
  end.

(** One iteration of the task loop of [clean_task_list] (lines 315-344).
    Reading the entry, [running()], [device_idx] and [exit_state] is inside
    the [try]: a failure there is logged and the key skipped. *)
Definition clean_one (now : Q) (k : key) : M unit :=
  st <- get ;;
  match d_get key_eqb k (task_list st) with
  | None => ret tt
  | Some e =>
      match e_task e with
      | None => ret tt
      | Some t =>
          match t_running t, t_exit_state t with
          | Some running, Some exit_state =>
              if running then ret tt
              else
                (if String.eqb exit_state "Encrypted" then
                   match k with
                   | KScan => raise TypeError      (* _key/1e6 in the log message *)
                   | KFreq f =>
                       modify (fun st => set_block_list (d_set num_eqb f now (temporary_block_list st)) st) ;;
                       st <- get ;;
                       (* auto_rx.task_list['SCAN']...: the name auto_rx is not defined *)
                       if d_mem key_eqb KScan (task_list st) then raise NameError else ret tt
                   end
                 else ret tt) ;;
                update_sdr (device_idx e) (set_in_use false) ;;
                update_sdr (device_idx e) (set_sdr_task None) ;;
                modify (fun st => set_task_list (d_del key_eqb k (task_list st)) st)
          | _, _ => ret tt
          end
      end
  end.

(** [for _key in autorx.task_list.keys()] under Python 3: each call to the
    iterator first checks the size of the dictionary. *)
Fixpoint clean_tasks_loop (now : Q) (n0 : nat) (ks : list key) : M unit :=
  st <- get ;;
  if negb (Nat.eqb (List.length (task_list st)) n0) then raise RuntimeError
  else match ks with
       | [] => ret tt
       | k :: ks' => clean_one now k ;; clean_tasks_loop now n0 ks'
       end.

(** [for _freq in temporary_block_list.keys()] (lines 347-350). *)
Fixpoint clean_blocks_loop (now : Q) (n0 : nat) (fs : list pynum) : M unit :=
  st <- get ;;
  if negb (Nat.eqb (List.length (temporary_block_list st)) n0) then raise RuntimeError
  else match fs with
       | [] => ret tt
       | f :: fs' =>
           (match d_get num_eqb f (temporary_block_list st) with
            | None => raise KeyError
            | Some began =>
                if Qltb began (now - block_ttl)
                then modify (fun st => set_block_list (d_del num_eqb f (temporary_block_list st)) st)
                else ret tt
            end) ;;
           clean_blocks_loop now n0 fs'
       end.

(** [clean_task_list()] *)
Definition clean_task_list (now : Q) : M unit :=
  st <- get ;;
  clean_tasks_loop now (List.length (task_list st)) (map fst (task_list st)) ;;
  st <- get ;;
  clean_blocks_loop now (List.length (temporary_block_list st)) (map fst (temporary_block_list st)) ;;
  st <- get ;;
  if d_mem key_eqb KScan (task_list st) then ret tt
  else
    free <- allocate_sdr true ;;
    match free with
    | Some _ => start_scanner
    | None => ret tt
    end.
End Scheduler.

(** ** The telemetry filter (auto_rx.py, lines 378-445) *)

(** The fields of a telemetry dictionary the filter reads; [tm_sats] is
    [None] when the key ['sats'] is absent. *)
Record telemetry : Type := mkTelemetry {
  tm_id : string;
  tm_lat : Q;
  tm_lon : Q;
  tm_alt : Q;
  tm_sats : option Z;
  tm_type : string
}.

Definition ascii_between (lo hi c : ascii) : bool :=
  (Nat.leb (nat_of_ascii lo) (nat_of_ascii c) && Nat.leb (nat_of_ascii c) (nat_of_ascii hi))%bool.

(** [\d] *)
Definition is_digit (c : ascii) : bool := ascii_between "0" "9" c.

(** [re.match(r'[E-Z][0-5][\d][1-7]\d{4}', _serial)] *)
Definition vaisala_callsign_valid (s : string) : bool :=
  match list_ascii_of_string s with
  | c1 :: c2 :: c3 :: c4 :: c5 :: c6 :: c7 :: c8 :: _ =>
      ascii_between "E" "Z" c1 && ascii_between "0" "5" c2 && is_digit c3
      && ascii_between "1" "7" c4 && forallb is_digit [c5; c6; c7; c8]
  | _ => false
  end.

(** [re.match(r'DFM[01][5679]-\d{6}', _serial)] *)
Definition dfm_callsign_valid (s : string) : bool :=
  match list_ascii_of_string s with
  | c1 :: c2 :: c3 :: c4 :: c5 :: c6 :: d1 :: d2 :: d3 :: d4 :: d5 :: d6 :: _ =>
      Ascii.eqb c1 "D" && Ascii.eqb c2 "F" && Ascii.eqb c3 "M"
      && existsb (Ascii.eqb c4) ["0"; "1"]%char
      && existsb (Ascii.eqb c5) ["5"; "6"; "7"; "9"]%char
      && Ascii.eqb c6 "-" && forallb is_digit [d1; d2; d3; d4; d5; d6]
  | _ => false
  end.

(** [pat in s] on strings. *)
Fixpoint str_contains (pat s : string) : bool :=
  String.prefix pat s ||
  match s with
  | EmptyString => false
  | String _ s' => str_contains pat s'
  end.

Section Filter.
(** [position_info(_listener, _payload)['straight_distance']], from
    [autorx.utils]: the filter is stated for any distance function. *)
Variable straight_distance : Q * Q * Q -> Q * Q * Q -> Q.

(** [telemetry_filter(telemetry)]: [true] accepts, [false] rejects. *)
Definition telemetry_filter (cfg : config) (t : telemetry) : bool :=
  (* First check: zero lat/lon *)
  if Qeq_bool (tm_lat t) 0 && Qeq_bool (tm_lon t) 0 then false
  (* Second check: altitude cap *)
  else if Qltb (max_altitude cfg) (tm_alt t) then false
  (* Third check: number of satellites *)
  else if match tm_sats t with Some n => Z.ltb n 4 | None => false end then false
  (* Fourth check: distance from the station, when a position is set *)
  else if negb (Qeq_bool (station_lat cfg) 0) && negb (Qeq_bool (station_lon cfg) 0)
          && Qltb (max_radius_km cfg * 1000)
                  (straight_distance (station_lat cfg, station_lon cfg, station_alt cfg)
                                     (tm_lat t, tm_lon t, tm_alt t))
  then false
  (* Serial number checks *)
  else vaisala_callsign_valid (tm_id t) || dfm_callsign_valid (tm_id t)
       || str_contains "M10" (tm_type t) || str_contains "iMet" (tm_type t).
End Filter.

(** ** Properties and scenarios *)

(** The stages of [telemetry_filter], one predicate each. *)
Definition position_fix_ok (t : telemetry) : bool :=
  negb (Qeq_bool (tm_lat t) 0 && Qeq_bool (tm_lon t) 0).

Definition sats_ok (t : telemetry) : bool :=
  match tm_sats t with Some n => negb (Z.ltb n 4) | None => true end.

Definition radius_ok (straight_distance : Q * Q * Q -> Q * Q * Q -> Q)
    (cfg : config) (t : telemetry) : bool :=
  negb (negb (Qeq_bool (station_lat cfg) 0) && negb (Qeq_bool (station_lon cfg) 0)
        && Qltb (max_radius_km cfg * 1000)
                (straight_distance (station_lat cfg, station_lon cfg, station_alt cfg)
                                   (tm_lat t, tm_lon t, tm_alt t))).

Definition serial_ok (t : telemetry) : bool :=
  vaisala_callsign_valid (tm_id t) || dfm_callsign_valid (tm_id t)
  || str_contains "M10" (tm_type t) || str_contains "iMet" (tm_type t).

Definition with_alt (t : telemetry) (a : Q) : telemetry :=
  mkTelemetry (tm_id t) (tm_lat t) (tm_lon t) a (tm_sats t) (tm_type t).

Definition with_id (t : telemetry) (i : string) : telemetry :=
  mkTelemetry i (tm_lat t) (tm_lon t) (tm_alt t) (tm_sats t) (tm_type t).

(** The state query of [clean_task_list] raises for this entry. *)
Definition query_fails (e : entry) : Prop :=
  match e_task e with
  | None => True
  | Some t => t_running t = None \/ t_exit_state t = None
  end.

Definition sdr_get (idx : string) (l : list (string * sdr)) : option sdr := d_get String.eqb idx l.

(** The devices bound to the registered tasks. *)
Definition devs (tl : list (key * entry)) : list string := map (fun p => device_idx (snd p)) tl.

(** Registry invariant: device names are unique, every registered task's
    device exists and is in use, and no device is bound to two tasks. *)
Definition inv (st : state) : Prop :=
  NoDup (map fst (sdr_list st)) /\
  (forall k e, In (k, e) (task_list st) ->
     exists s, sdr_get (device_idx e) (sdr_list st) = Some s /\ in_use s = true) /\
  NoDup (devs (task_list st)).

Definition in_use_count (st : state) : nat :=
  List.length (filter (fun p => in_use (snd p)) (sdr_list st)).

(** An operation preserves [inv], also on the state an exception leaves. *)
Definition preserves {A} (m : M A) : Prop := forall st, inv st -> inv (state_of (m st)).

(** The scheduler's moves: its five operations with any arguments, and the
    other threads: the scanner pushing a batch of detections onto the queue,
    and a worker changing its own running/exit state. *)
Inductive step (VALID DRIFTY : list string) (cfg : config) : state -> state -> Prop :=
| step_start_scanner st : step VALID DRIFTY cfg st (state_of (start_scanner st))
| step_stop_scanner st : step VALID DRIFTY cfg st (state_of (stop_scanner st))
| step_start_decoder now f ty st :
    step VALID DRIFTY cfg st (state_of (start_decoder DRIFTY cfg now f ty st))
| step_handle_scan_results now st :
    step VALID DRIFTY cfg st (state_of (handle_scan_results VALID DRIFTY cfg now st))
| step_clean_task_list now st :
    step VALID DRIFTY cfg st (state_of (clean_task_list cfg now st))
| step_scan_put batch st :
    step VALID DRIFTY cfg st (set_scan_results (scan_results st ++ [batch]) st)
| step_worker k e t t' st :
    d_get key_eqb k (task_list st) = Some e -> e_task e = Some t -> t_kind t' = t_kind t ->
    step VALID DRIFTY cfg st
      (set_task_list (d_set key_eqb k (mkEntry (device_idx e) (Some t')) (task_list st)) st).

(** States reachable from start-up: the device pool read from the
    configuration, all devices free, nothing registered, blocked or queued. *)
Inductive reachable (VALID DRIFTY : list string) (cfg : config) : state -> Prop :=
| reach_init sdrs :
    NoDup (map fst sdrs) -> (forall i s, In (i, s) sdrs -> in_use s = false) ->
    reachable VALID DRIFTY cfg (mkState sdrs [] [] [])
| reach_step st st' :
    reachable VALID DRIFTY cfg st -> step VALID DRIFTY cfg st st' ->
    reachable VALID DRIFTY cfg st'.

(** Concrete inputs. *)
Definition VALID_example : list string := ["RS41"; "RS92"; "DFM"; "M10"; "iMet"]%string.
Definition DRIFTY_example : list string := ["RS92"; "DFM"]%string.
Definition cfg_example : config :=
  mkConfig 2 15000 50000 0 0 0 1000
    [("RS41", false); ("RS92", false); ("DFM", false); ("M10", false); ("iMet", false)]%string.
Definition sdr_example (b : bool) : sdr := mkSdr b None 0 0 false.
Definition scanner_running : task := mkTask Scanner (Some true) (Some "OK"%string).
Definition decoder_encrypted : task :=
  mkTask (Decoder "RS41" (PyFloat 401500000)) (Some false) (Some "Encrypted"%string).

(** Two devices: a scanner, and an RS41 decoder on 401.5 MHz that stopped on
    an encrypted sonde; 402.0 MHz was blocked at time 0. *)
Definition st_encrypted : state :=
  mkState [("0"%string, sdr_example true); ("1"%string, sdr_example true)]
    [(KScan, mkEntry "0" (Some scanner_running));
     (KFreq (PyFloat 401500000), mkEntry "1" (Some decoder_encrypted))]
    [(PyFloat 402000000, 0)] [].

(** One device, used by the scanner; one detection queued. *)
Definition st_one_sdr_scanning (ty : string) : state :=
  mkState [("0"%string, sdr_example true)] [(KScan, mkEntry "0" (Some scanner_running))] []
    [[(PyFloat 401500000, ty)]].

(** An RS92 decoder on the int key 401500000 and an expired block of
    401.505 MHz (blocked at time 0). *)
Definition st_drifty : state :=
  mkState [("0"%string, sdr_example true); ("1"%string, sdr_example false)]
    [(KFreq (PyInt 401500000),
      mkEntry "0" (Some (new_worker (Decoder "RS92" (PyInt 401500000)))))]
    [(PyFloat 401505000, 0)] [].

(** One RS41 decoder on 401.5 MHz that stopped normally; no scanner. *)
Definition st_reaped : state :=
  mkState [("0"%string, sdr_example true)]
    [(KFreq (PyFloat 401500000),
      mkEntry "0" (Some (mkTask (Decoder "RS41" (PyFloat 401500000)) (Some false) (Some "OK"%string))))]
    [] [].

(** An RS92 decoder on device 0 registered under the frequency key [k];
    device 1 is free; nothing blocked or queued. *)
Definition st_float_key (k : pynum) : state :=
  mkState [("0"%string, sdr_example true); ("1"%string, sdr_example false)]
    [(KFreq k, mkEntry "0" (Some (new_worker (Decoder "RS92" k))))] [] [].

(** ** Footprints of the operations *)

(** [R] relates the state before an operation to the state it leaves, also
    when it raises. *)
Definition keeps (R : state -> state -> Prop) {A} (m : M A) : Prop :=
  forall st, R st (state_of (m st)).

(** Registry edits: a sequence of assignments [d[k] = v] and [d.pop(k)]. *)
Inductive tl_steps : list (key * entry) -> list (key * entry) -> Prop :=
| tl_refl l : tl_steps l l
| tl_set k v l l' : tl_steps (d_set key_eqb k v l) l' -> tl_steps l l'
| tl_del k l l' : tl_steps (d_del key_eqb k l) l' -> tl_steps l l'.

(** The registry is only edited key by key and the detection queue is left
    alone. *)
Definition frame (st st' : state) : Prop :=
  scan_results st' = scan_results st /\ tl_steps (task_list st) (task_list st').

(** No two keys of the registry are equal under Python's [==]. *)
Fixpoint keys_unique (l : list (key * entry)) : Prop :=
  match l with
  | [] => True
  | (k, _) :: l' => d_mem key_eqb k l' = false /\ keys_unique l'
  end.

(** ** Lemmas on the comparisons *)

Lemma Qltb_true (a b : Q) : Qltb a b = true <-> a < b.
Proof.
  unfold Qltb. rewrite negb_true_iff. split.
  - intro H. apply Qnot_le_lt. intro H'. apply Qle_bool_iff in H'. congruence.
  - intro H. destruct (Qle_bool b a) eqn:E; [|reflexivity].
    apply Qle_bool_iff in E. exfalso. apply (Qlt_not_le a b); assumption.
Qed.

Lemma Qltb_false (a b : Q) : Qltb a b = false <-> b <= a.
Proof.
  unfold Qltb. rewrite negb_false_iff. apply Qle_bool_iff.
Qed.

Lemma Qeq_bool_refl' (a : Q) : Qeq_bool a a = true.
Proof. apply Qeq_bool_iff. reflexivity. Qed.

(** ** The telemetry filter *)

(** C4: a record whose latitude and longitude are both exactly 0.0 is
    rejected, whatever its other fields, the configuration and the distance
    function. *)
Theorem telemetry_filter_zero_position_rejects :
  forall (straight_distance : Q * Q * Q -> Q * Q * Q -> Q) (cfg : config) (t : telemetry),
    tm_lat t == 0 -> tm_lon t == 0 ->
    telemetry_filter straight_distance cfg t = false.
Proof.
  intros d cfg t Hlat Hlon. unfold telemetry_filter.
  apply Qeq_bool_iff in Hlat. apply Qeq_bool_iff in Hlon.
  rewrite Hlat, Hlon. reflexivity.
Qed.

(** C5: for a record with a position fix that passes the satellite, radius
    and serial stages, altitude equal to the cap is accepted and altitude
    cap + 1 rejected. *)
Theorem telemetry_filter_altitude_cap_boundary :
  forall (straight_distance : Q * Q * Q -> Q * Q * Q -> Q) (cfg : config) (t : telemetry),
    position_fix_ok t = true -> sats_ok t = true ->
    radius_ok straight_distance cfg (with_alt t (max_altitude cfg)) = true ->
    serial_ok t = true ->
    telemetry_filter straight_distance cfg (with_alt t (max_altitude cfg)) = true /\
    telemetry_filter straight_distance cfg (with_alt t (max_altitude cfg + 1)) = false.
Proof.
  intros d cfg t Hfix Hsats Hrad Hser.
  unfold position_fix_ok in Hfix. apply negb_true_iff in Hfix.
  unfold telemetry_filter, with_alt in *; simpl in *.
  split.
  - rewrite Hfix.
    replace (Qltb (max_altitude cfg) (max_altitude cfg)) with false
      by (symmetry; apply Qltb_false; apply Qle_refl).
    unfold sats_ok in Hsats.
    destruct (tm_sats t) as [n|]; [apply negb_true_iff in Hsats; rewrite Hsats|];
      unfold radius_ok in Hrad; simpl in Hrad; apply negb_true_iff in Hrad; rewrite Hrad;
      exact Hser.
  - rewrite Hfix.
    replace (Qltb (max_altitude cfg) (max_altitude cfg + 1)) with true
      by (symmetry; apply Qltb_true; lra).
    reflexivity.
Qed.

(** C9: when the station latitude or longitude is exactly 0.0 the radius
    stage is skipped (the result does not depend on the distance at all);
    when both are nonzero a record that reaches the stage and lies beyond
    the radius cap is rejected. *)
Theorem telemetry_filter_radius_gate :
  forall (cfg : config) (t : telemetry),
    ((station_lat cfg == 0 \/ station_lon cfg == 0) ->
     forall d1 d2 : Q * Q * Q -> Q * Q * Q -> Q,
       telemetry_filter d1 cfg t = telemetry_filter d2 cfg t) /\
    (~ station_lat cfg == 0 -> ~ station_lon cfg == 0 ->
     forall d : Q * Q * Q -> Q * Q * Q -> Q,
       position_fix_ok t = true -> tm_alt t <= max_altitude cfg -> sats_ok t = true ->
       max_radius_km cfg * 1000 <
         d (station_lat cfg, station_lon cfg, station_alt cfg) (tm_lat t, tm_lon t, tm_alt t) ->
       telemetry_filter d cfg t = false).
Proof.
  intros cfg t. split.
  - intros Hz d1 d2. unfold telemetry_filter.
    destruct Hz as [Hz|Hz]; apply Qeq_bool_iff in Hz; rewrite Hz; simpl.
    + reflexivity.
    + rewrite andb_false_r. reflexivity.
  - intros Hlat Hlon d Hfix Halt Hsats Hfar. unfold telemetry_filter.
    unfold position_fix_ok in Hfix. apply negb_true_iff in Hfix. rewrite Hfix.
    replace (Qltb (max_altitude cfg) (tm_alt t)) with false by (symmetry; apply Qltb_false; exact Halt).
    replace (match tm_sats t with Some n => Z.ltb n 4 | None => false end) with false
      by (unfold sats_ok in Hsats; destruct (tm_sats t); [apply negb_true_iff in Hsats|]; auto).
    replace (Qeq_bool (station_lat cfg) 0) with false
      by (symmetry; apply not_true_iff_false; intro H; apply Hlat; apply Qeq_bool_iff; exact H).
    replace (Qeq_bool (station_lon cfg) 0) with false
      by (symmetry; apply not_true_iff_false; intro H; apply Hlon; apply Qeq_bool_iff; exact H).
    apply Qltb_true in Hfar. simpl. rewrite Hfar. reflexivity.
Qed.

(** ** The temporary block list in [start_decoder] *)

(** C3: while [now - began < TTL] a blocked frequency is rejected with the
    state unchanged; once [now - began >= TTL] the block entry is removed
    and [start_decoder] goes on with the spacing guard, allocation and
    registration. *)
Theorem start_decoder_block_ttl :
  forall DRIFTY cfg now freq sonde_type st began,
    d_get num_eqb freq (temporary_block_list st) = Some began ->
    (now - began < block_ttl cfg ->
     start_decoder DRIFTY cfg now freq sonde_type st = Ret tt st) /\
    (block_ttl cfg <= now - began ->
     start_decoder DRIFTY cfg now freq sonde_type st =
     start_decoder_rest DRIFTY cfg freq sonde_type
       (set_block_list (d_del num_eqb freq (temporary_block_list st)) st)).
Proof.
  intros DRIFTY cfg now freq ty st began Hb. split; intro Ht;
    unfold start_decoder, bind, get; rewrite Hb.
  - replace (Qltb (now - block_ttl cfg) began) with true
      by (symmetry; apply Qltb_true; lra).
    reflexivity.
  - replace (Qltb (now - block_ttl cfg) began) with false
      by (symmetry; apply Qltb_false; lra).
    reflexivity.
Qed.

(** ** Reaping an encrypted decoder while the scanner runs *)

(** C2 (failing input): reaping a decoder that stopped on an encrypted sonde
    while a scanner is registered inserts the block entry and then raises
    [NameError] on [auto_rx.task_list]: the scanner is not told, the device
    is not released and the task stays registered. *)
Theorem clean_task_list_encrypted_with_scanner_raises :
  clean_task_list cfg_example 1000 st_encrypted =
  Raise NameError
    (set_block_list [(PyFloat 402000000, 0); (PyFloat 401500000, 1000)] st_encrypted).
Proof. vm_compute. reflexivity. Qed.

(** ** Preempting the scanner on a one-device pool *)

(** C7 (failing input): an inverted RS41 detection ("-RS41") on a pool of
    one device used by the scanner: the scanner is stopped, the device
    re-allocated and the registry entry for the frequency created, then
    [config['experimental_decoders']['-RS41']] raises [KeyError]; no decoder
    is constructed and the entry is left with [task = None]. *)
Theorem handle_scan_results_inverted_detection_raises :
  handle_scan_results VALID_example DRIFTY_example cfg_example 5 (st_one_sdr_scanning "-RS41") =
  Raise KeyError
    (mkState [("0"%string, sdr_example true)]
       [(KFreq (PyFloat 401500000), mkEntry "0" None)] [] []).
Proof. vm_compute. reflexivity. Qed.

(** The same detection without the inversion marker: the device goes to a
    new decoder and the registry holds exactly that decoder. *)
Example handle_scan_results_plain_detection :
  handle_scan_results VALID_example DRIFTY_example cfg_example 5 (st_one_sdr_scanning "RS41") =
  Ret tt
    (mkState [("0"%string, mkSdr true (Some (new_worker (Decoder "RS41" (PyFloat 401500000)))) 0 0 false)]
       [(KFreq (PyFloat 401500000),
         mkEntry "0" (Some (new_worker (Decoder "RS41" (PyFloat 401500000)))))] [] []).
Proof. vm_compute. reflexivity. Qed.

(** ** Counterexamples *)

(** The block check runs before the spacing guard: an RS92 decoder runs on
    401500000 and 401.505 MHz has an expired block entry; [start_decoder] for RS92 on 401.505 MHz is
    rejected by the spacing guard, but only after removing the block entry:
    the state is not left unchanged. *)
Lemma start_decoder_spacing_reject_mutates :
  start_decoder DRIFTY_example cfg_example 1000 (PyFloat 401505000) "RS92" st_drifty =
    Ret tt (set_block_list [] st_drifty) /\
  set_block_list [] st_drifty <> st_drifty.
Proof.
  split.
  - vm_compute. reflexivity.
  - discriminate.
Qed.

(** C1 (code bug): the spacing guard only looks at registry keys whose
    Python type is [int] (line 202).  A request for RS92 on 401505000.0, 5 kHz
    from a running RS92 decoder (limit 15 kHz), is rejected when that
    decoder's key is the int 401500000; when its key is the float
    401500000.0 (a frequency registered as a float, as the command line's
    [args.frequency*1e6] is) the guard skips it, device 1 is allocated and a
    second RS92 decoder starts within the spacing limit. *)
Theorem start_decoder_float_key_not_spaced :
  start_decoder DRIFTY_example cfg_example 1000 (PyFloat 401505000) "RS92"
    (st_float_key (PyInt 401500000)) = Ret tt (st_float_key (PyInt 401500000)) /\
  let w2 := new_worker (Decoder "RS92" (PyFloat 401505000)) in
  start_decoder DRIFTY_example cfg_example 1000 (PyFloat 401505000) "RS92"
    (st_float_key (PyFloat 401500000)) =
  Ret tt (mkState [("0"%string, sdr_example true); ("1"%string, mkSdr true (Some w2) 0 0 false)]
            [(KFreq (PyFloat 401500000),
              mkEntry "0" (Some (new_worker (Decoder "RS92" (PyFloat 401500000)))));
             (KFreq (PyFloat 401505000), mkEntry "1" (Some w2))] [] []).
Proof. split; vm_compute; reflexivity. Qed.

(** C10 (code bug): 402.0 MHz has an expired block entry and a
    decoder stopped on an encrypted sonde while the scanner runs; the pass
    raises [NameError] at line 334 ([auto_rx.task_list], where the module is
    imported as [autorx]) before anything is removed, not [RuntimeError]. *)
Lemma clean_task_list_expired_block_name_error :
  d_get num_eqb (PyFloat 402000000) (temporary_block_list st_encrypted) = Some 0 /\
  0 < 1000 - block_ttl cfg_example /\
  clean_task_list cfg_example 1000 st_encrypted =
    Raise NameError (set_block_list [(PyFloat 402000000, 0); (PyFloat 401500000, 1000)] st_encrypted) /\
  (forall s, clean_task_list cfg_example 1000 st_encrypted <> Raise RuntimeError s).
Proof.
  split; [reflexivity|]. split; [vm_compute; reflexivity|].
  split; [vm_compute; reflexivity|].
  intros s. vm_compute. discriminate.
Qed.

(** ** The spacing guard *)

Ltac unfold_monad := unfold bind, get, ret, raise, modify in *.

Lemma spacing_loop_state :
  forall DRIFTY cfg freq ty ks st,
    state_of (spacing_loop DRIFTY cfg freq ty ks st) = st.
Proof.
  intros DRIFTY cfg freq ty ks. induction ks as [|k ks IH]; intro st; [reflexivity|].
  destruct k as [|[z|q]]; simpl; unfold_monad; try apply IH.
  destruct (d_get key_eqb (KFreq (PyInt z)) (task_list st)) as [e|]; [|reflexivity].
  destruct (e_task e) as [t|]; [|reflexivity].
  destruct (task_sonde_type t) as [s|]; [|reflexivity].
  destruct (str_in s DRIFTY && String.eqb s ty); [|apply IH].
  destruct (Qltb _ _); [reflexivity|apply IH].
Qed.

Lemma spacing_loop_hit :
  forall DRIFTY cfg freq ty st z e t f0,
    d_get key_eqb (KFreq (PyInt z)) (task_list st) = Some e ->
    e_task e = Some t -> t_kind t = Decoder ty f0 -> str_in ty DRIFTY = true ->
    Qabs (inject_Z z - num_val freq) < decoder_spacing_limit cfg ->
    forall ks st', In (KFreq (PyInt z)) ks ->
      spacing_loop DRIFTY cfg freq ty ks st <> Ret false st'.
Proof.
  intros DRIFTY cfg freq ty st z e t f0 Hget Ht Hk Hd Hlim ks.
  induction ks as [|k ks IH]; intros st' Hin; [destruct Hin|].
  destruct Hin as [->|Hin].
  - assert (Hq : Qltb (Qabs (inject_Z z - num_val freq)) (decoder_spacing_limit cfg) = true)
      by (apply Qltb_true; exact Hlim).
    cbn -[Qabs Qltb]. rewrite Hget, Ht. unfold task_sonde_type. rewrite Hk.
    rewrite Hd, String.eqb_refl. cbn -[Qabs Qltb]. rewrite Hq. discriminate.
  - destruct k as [|[z'|q]]; cbn -[Qabs Qltb]; try (apply IH; exact Hin).
    destruct (d_get key_eqb (KFreq (PyInt z')) (task_list st)) as [e'|]; [|discriminate].
    destruct (e_task e') as [t'|]; [|discriminate].
    destruct (task_sonde_type t') as [s|]; [|discriminate].
    destruct (str_in s DRIFTY && String.eqb s ty); [|apply IH; exact Hin].
    destruct (Qltb _ _); [discriminate|apply IH; exact Hin].
Qed.

Lemma start_decoder_rest_spacing_reject :
  forall DRIFTY cfg freq ty st z e t f0,
    In (KFreq (PyInt z)) (map fst (task_list st)) ->
    d_get key_eqb (KFreq (PyInt z)) (task_list st) = Some e ->
    e_task e = Some t -> t_kind t = Decoder ty f0 -> str_in ty DRIFTY = true ->
    Qabs (inject_Z z - num_val freq) < decoder_spacing_limit cfg ->
    state_of (start_decoder_rest DRIFTY cfg freq ty st) = st.
Proof.
  intros DRIFTY cfg freq ty st z e t f0 Hin Hget Ht Hk Hd Hlim.
  unfold start_decoder_rest. unfold bind at 1, get at 1. unfold bind at 1.
  pose proof (spacing_loop_state DRIFTY cfg freq ty (map fst (task_list st)) st) as Hs.
  pose proof (spacing_loop_hit DRIFTY cfg freq ty st z e t f0 Hget Ht Hk Hd Hlim
                (map fst (task_list st))) as Hh.
  destruct (spacing_loop DRIFTY cfg freq ty (map fst (task_list st)) st) as [[|] st'|ex st'];
    simpl in Hs; subst st'.
  - reflexivity.
  - exfalso. exact (Hh st Hin eq_refl).
  - reflexivity.
Qed.

(** The spacing guard as written: when a decoder of a drifty type equal to [sonde_type] is
    registered under an [int] frequency key closer than
    [decoder_spacing_limit] to [freq], [start_decoder] allocates no device
    and changes neither the registry nor the queue; the block list is
    unchanged, or has lost only [freq]'s expired entry (the block check
    runs first). *)
Theorem start_decoder_spacing_rejects :
  forall DRIFTY cfg now freq ty st z e t f0,
    In (KFreq (PyInt z)) (map fst (task_list st)) ->
    d_get key_eqb (KFreq (PyInt z)) (task_list st) = Some e ->
    e_task e = Some t -> t_kind t = Decoder ty f0 -> str_in ty DRIFTY = true ->
    Qabs (inject_Z z - num_val freq) < decoder_spacing_limit cfg ->
    let st' := state_of (start_decoder DRIFTY cfg now freq ty st) in
    sdr_list st' = sdr_list st /\ task_list st' = task_list st /\
    scan_results st' = scan_results st /\
    (temporary_block_list st' = temporary_block_list st \/
     exists began, d_get num_eqb freq (temporary_block_list st) = Some began /\
       block_ttl cfg <= now - began /\
       temporary_block_list st' = d_del num_eqb freq (temporary_block_list st)).
Proof.
  intros DRIFTY cfg now freq ty st z e t f0 Hin Hget Ht Hk Hd Hlim st'.
  subst st'. unfold start_decoder, bind, get, ret, modify.
  destruct (d_get num_eqb freq (temporary_block_list st)) as [began|] eqn:Hb.
  - destruct (Qltb (now - block_ttl cfg) began) eqn:Hq.
    + simpl. auto.
    + rewrite (start_decoder_rest_spacing_reject DRIFTY cfg freq ty _ z e t f0); auto.
      simpl. split; [reflexivity|]. split; [reflexivity|]. split; [reflexivity|].
      right. exists began. split; [reflexivity|]. split; [|reflexivity].
      apply Qltb_false in Hq. lra.
  - rewrite (start_decoder_rest_spacing_reject DRIFTY cfg freq ty _ z e t f0); auto.
Qed.

(** ** Dictionary lemmas *)

Section DictLemmas.
Context {K V : Type} (eqb : K -> K -> bool).

Lemma d_del_length (k : K) (l : list (K * V)) (v : V) :
  d_get eqb k l = Some v -> (List.length (d_del eqb k l) < List.length l)%nat.
Proof.
  induction l as [|[k' v'] l IH]; simpl; [discriminate|].
  destruct (eqb k' k); intro H; simpl; [lia|]. specialize (IH H). lia.
Qed.

Lemma d_set_keys_incl (k : K) (v : V) (l : list (K * V)) :
  incl (map fst l) (map fst (d_set eqb k v l)).
Proof.
  induction l as [|[k' v'] l IH]; simpl; [intros x []|].
  destruct (eqb k' k); simpl.
  - apply incl_refl.
  - apply incl_cons; [left; reflexivity|]. apply incl_tl. exact IH.
Qed.

Lemma d_get_in (k : K) (l : list (K * V)) (v : V) :
  d_get eqb k l = Some v -> exists k', In (k', v) l /\ eqb k' k = true.
Proof.
  induction l as [|[k' v'] l IH]; simpl; [discriminate|].
  destruct (eqb k' k) eqn:E.
  - intro H. injection H as <-. exists k'. auto.
  - intro H. destruct (IH H) as [k'' [Hin He]]. exists k''. auto.
Qed.
End DictLemmas.

(** Case split on the innermost [match] of the goal, repeatedly. *)
Ltac split_matches :=
  repeat (match goal with
          | |- context [match ?x with _ => _ end] =>
              lazymatch x with
              | context [match _ with _ => _ end] => fail
              | _ => destruct x eqn:?
              end
          end; simpl in * ).

(** ** The reap pass under Python 3 iteration *)

Lemma clean_one_shape :
  forall now k st,
    match clean_one now k st with
    | Ret _ st1 =>
        incl (map fst (temporary_block_list st)) (map fst (temporary_block_list st1)) /\
        (task_list st1 = task_list st \/
         (List.length (task_list st1) < List.length (task_list st))%nat)
    | Raise _ st1 =>
        incl (map fst (temporary_block_list st)) (map fst (temporary_block_list st1)) /\
        task_list st1 = task_list st
    end.
Proof.
  intros now k st. unfold clean_one, update_sdr. unfold_monad.
  destruct (d_get key_eqb k (task_list st)) as [e|] eqn:Hg; simpl;
    [|split; [apply incl_refl|left; reflexivity]].
  destruct (e_task e) as [t|]; simpl; [|split; [apply incl_refl|left; reflexivity]].
  destruct (t_running t) as [running|], (t_exit_state t) as [ex|]; simpl;
    try (split; [apply incl_refl|left; reflexivity]).
  destruct running; simpl; [split; [apply incl_refl|left; reflexivity]|].
  destruct (String.eqb ex "Encrypted"); simpl;
    [destruct k as [|f]; simpl; [split; [apply incl_refl|reflexivity]|]|].
  all: split_matches;
    repeat split; try apply incl_refl; try apply d_set_keys_incl; try (left; reflexivity);
    try (right; eapply d_del_length; exact Hg).
Qed.

Definition is_runtime_error {A} (r : result A) : bool :=
  match r with Raise RuntimeError _ => true | _ => false end.

Lemma clean_tasks_loop_keeps :
  forall now n0 ks st,
    List.length (task_list st) = n0 ->
    is_runtime_error (clean_tasks_loop now n0 ks st) = false ->
    task_list (state_of (clean_tasks_loop now n0 ks st)) = task_list st /\
    incl (map fst (temporary_block_list st))
         (map fst (temporary_block_list (state_of (clean_tasks_loop now n0 ks st)))).
Proof.
  intros now n0 ks. induction ks as [|k ks IH]; intros st Hlen Hr;
    simpl in *; unfold_monad; rewrite Hlen, Nat.eqb_refl in *; simpl in *.
  - split; [reflexivity|apply incl_refl].
  - pose proof (clean_one_shape now k st) as Hs.
    destruct (clean_one now k st) as [u st1|ex st1]; simpl in *.
    + destruct Hs as [Hinc [Htl|Hlt]].
      * assert (Hlen1 : List.length (task_list st1) = n0) by (rewrite Htl; exact Hlen).
        destruct (IH st1 Hlen1 Hr) as [H1 H2]. split.
        -- rewrite H1. exact Htl.
        -- eapply incl_tran; eassumption.
      * exfalso. destruct ks as [|k' ks']; simpl in Hr; unfold_monad;
          replace (Nat.eqb (List.length (task_list st1)) n0) with false in Hr
            by (symmetry; apply Nat.eqb_neq; lia);
          simpl in Hr; discriminate.
    + destruct Hs as [Hinc Htl]. split; [exact Htl|exact Hinc].
Qed.

Lemma clean_blocks_loop_keeps :
  forall cfg now n0 fs st,
    List.length (temporary_block_list st) = n0 ->
    is_runtime_error (clean_blocks_loop cfg now n0 fs st) = false ->
    state_of (clean_blocks_loop cfg now n0 fs st) = st.
Proof.
  intros cfg now n0 fs. induction fs as [|f fs IH]; intros st Hlen Hr;
    simpl in *; unfold_monad; rewrite Hlen, Nat.eqb_refl in *; simpl in *; [reflexivity|].
  destruct (d_get num_eqb f (temporary_block_list st)) as [began|] eqn:Hg; simpl in *; [|reflexivity].
  destruct (Qltb began (now - block_ttl cfg)); simpl in *.
  - exfalso. pose proof (d_del_length num_eqb f (temporary_block_list st) began Hg) as Hl.
    destruct fs as [|f' fs']; simpl in Hr; unfold_monad; simpl in Hr;
      replace (Nat.eqb (List.length (d_del num_eqb f (temporary_block_list st))) n0) with false in Hr
        by (symmetry; apply Nat.eqb_neq; lia);
      simpl in Hr; discriminate.
  - apply IH; assumption.
Qed.

Lemma allocate_check_only_state :
  forall st, state_of (allocate_sdr true st) = st.
Proof.
  intro st. unfold allocate_sdr. unfold_monad. destruct (first_free (sdr_list st)); reflexivity.
Qed.

Lemma start_scanner_keeps :
  forall st,
    incl (map fst (task_list st)) (map fst (task_list (state_of (start_scanner st)))) /\
    temporary_block_list (state_of (start_scanner st)) = temporary_block_list st.
Proof.
  intro st. unfold start_scanner, allocate_sdr, update_sdr. unfold_monad.
  split_matches; split; try reflexivity; try apply incl_refl;
    try (eapply incl_tran; apply d_set_keys_incl); try apply d_set_keys_incl.
Qed.

(** Completing the pass normally (or with an exception other than
    [RuntimeError]) keeps every registry key and every block entry key. *)
Lemma clean_task_list_keeps :
  forall cfg now st,
    is_runtime_error (clean_task_list cfg now st) = false ->
    incl (map fst (task_list st)) (map fst (task_list (state_of (clean_task_list cfg now st)))) /\
    incl (map fst (temporary_block_list st))
         (map fst (temporary_block_list (state_of (clean_task_list cfg now st)))).
Proof.
  intros cfg now st Hr. unfold clean_task_list in *. unfold_monad.
  pose proof (clean_tasks_loop_keeps now (List.length (task_list st)) (map fst (task_list st)) st eq_refl)
    as Ht.
  destruct (clean_tasks_loop now (List.length (task_list st)) (map fst (task_list st)) st)
    as [u st1|ex st1] eqn:E1; simpl in *.
  2: { destruct (Ht Hr) as [H1 H2]. rewrite H1. split; [apply incl_refl|exact H2]. }
  destruct (Ht eq_refl) as [H1 H2]. clear Ht E1.
  pose proof (clean_blocks_loop_keeps cfg now (List.length (temporary_block_list st1))
                (map fst (temporary_block_list st1)) st1 eq_refl) as Hb.
  destruct (clean_blocks_loop cfg now (List.length (temporary_block_list st1))
              (map fst (temporary_block_list st1)) st1) as [u2 st2|ex st2] eqn:E2; simpl in *.
  2: { specialize (Hb Hr). subst st2. rewrite H1. split; [apply incl_refl|exact H2]. }
  specialize (Hb eq_refl). subst st2. clear E2.
  destruct (d_mem key_eqb KScan (task_list st1)); simpl.
  - rewrite H1. split; [apply incl_refl|exact H2].
  - pose proof (allocate_check_only_state st1) as Ha.
    destruct (allocate_sdr true st1) as [[idx|] st3|ex st3]; simpl in *; subst st3.
    + destruct (start_scanner_keeps st1) as [H3 H4].
      destruct (start_scanner st1) as [u4 st4|ex st4]; simpl in *;
        (split; [rewrite <- H1; exact H3|rewrite H4; exact H2]).
    + rewrite H1. split; [apply incl_refl|exact H2].
    + rewrite H1. split; [apply incl_refl|exact H2].
Qed.

(** Under Python 3 dictionary iteration, an invocation of
    [clean_task_list] that deregisters a task or removes a block entry ends
    in [RuntimeError]: it never completes the pass nor reaches the
    scanner-restart step. *)
Theorem clean_task_list_removal_raises_runtime_error :
  forall cfg now st,
    let r := clean_task_list cfg now st in
    ((exists k, In k (map fst (task_list st)) /\ ~ In k (map fst (task_list (state_of r)))) \/
     (exists f, In f (map fst (temporary_block_list st)) /\
                ~ In f (map fst (temporary_block_list (state_of r))))) ->
    exists s, r = Raise RuntimeError s.
Proof.
  intros cfg now st r Hrem. subst r.
  destruct (is_runtime_error (clean_task_list cfg now st)) eqn:E.
  - destruct (clean_task_list cfg now st) as [u s|[] s]; simpl in E; try discriminate.
    exists s. reflexivity.
  - exfalso. destruct (clean_task_list_keeps cfg now st E) as [H1 H2].
    destruct Hrem as [[k [Hin Hout]]|[f [Hin Hout]]]; auto.
Qed.

(** ** The device pool *)

Lemma sdr_update_keys :
  forall idx f l l', sdr_update idx f l = Some l' -> map fst l' = map fst l.
Proof.
  intros idx f l. induction l as [|[i s] l IH]; intros l' H; simpl in H; [discriminate|].
  destruct (String.eqb i idx).
  - injection H as <-. reflexivity.
  - destruct (sdr_update idx f l) as [l''|] eqn:E; simpl in H; [|discriminate].
    injection H as <-. simpl. rewrite (IH l'' eq_refl). reflexivity.
Qed.

Lemma sdr_update_get :
  forall idx f l l', sdr_update idx f l = Some l' ->
    forall j, sdr_get j l' = if String.eqb idx j then option_map f (sdr_get j l) else sdr_get j l.
Proof.
  intros idx f l. induction l as [|[i s] l IH]; intros l' H j; simpl in H; [discriminate|].
  unfold sdr_get in *. simpl.
  destruct (String.eqb_spec i idx) as [->|Hne].
  - injection H as <-. simpl.
    destruct (String.eqb_spec idx j); reflexivity.
  - destruct (sdr_update idx f l) as [l''|] eqn:E; simpl in H; [|discriminate].
    injection H as <-. simpl. rewrite (IH l'' eq_refl j).
    destruct (String.eqb_spec i j) as [->|Hij]; [|reflexivity].
    destruct (String.eqb_spec idx j); [congruence|reflexivity].
Qed.

Lemma sdr_update_some :
  forall idx f l, In idx (map fst l) -> exists l', sdr_update idx f l = Some l'.
Proof.
  intros idx f l. induction l as [|[i s] l IH]; simpl; intros H; [destruct H|].
  destruct (String.eqb_spec i idx) as [->|Hne]; [eexists; reflexivity|].
  destruct H as [H|H]; [congruence|]. destruct (IH H) as [l' E]. rewrite E.
  eexists; reflexivity.
Qed.

Lemma sdr_get_in :
  forall idx l s, sdr_get idx l = Some s -> In idx (map fst l).
Proof.
  intros idx l s H. unfold sdr_get in H. destruct (d_get_in String.eqb idx l s H) as [k [Hin Heq]].
  apply String.eqb_eq in Heq. subst k. apply in_map_iff. exists (idx, s). auto.
Qed.

Lemma first_free_spec :
  forall l idx, NoDup (map fst l) -> first_free l = Some idx ->
    exists s, sdr_get idx l = Some s /\ in_use s = false.
Proof.
  induction l as [|[i s] l IH]; intros idx Hnd H; simpl in H; [discriminate|].
  inversion Hnd as [|? ? Hni Hnd']; subst.
  unfold sdr_get; simpl.
  destruct (in_use s) eqn:Hu.
  - destruct (String.eqb_spec i idx) as [->|Hne].
    + exfalso. apply Hni. clear -H. induction l as [|[i' s'] l IHl]; simpl in *; [discriminate|].
      destruct (in_use s'); [right; auto|]. injection H as ->. left; reflexivity.
    + exact (IH idx Hnd' H).
  - injection H as <-. rewrite String.eqb_refl. exists s. auto.
Qed.

(** ** The registry *)

Lemma d_del_in {K V} (eqb : K -> K -> bool) :
  forall k (l : list (K * V)) p, In p (d_del eqb k l) -> In p l.
Proof.
  intros k l. induction l as [|[k' v'] l IH]; simpl; intros p H; [destruct H|].
  destruct (eqb k' k); [right; exact H|]. destruct H as [H|H]; [left; exact H|right; auto].
Qed.

Lemma d_set_in {K V} (eqb : K -> K -> bool) :
  forall k v (l : list (K * V)) p, In p (d_set eqb k v l) -> In p l \/ snd p = v.
Proof.
  intros k v l. induction l as [|[k' v'] l IH]; simpl; intros p H.
  - destruct H as [<-|[]]. right; reflexivity.
  - destruct (eqb k' k); destruct H as [<-|H]; auto.
    destruct (IH p H); auto.
Qed.

Lemma d_get_set_same {K V} (eqb : K -> K -> bool) :
  forall k (v : V) l, eqb k k = true -> d_get eqb k (d_set eqb k v l) = Some v.
Proof.
  intros k v l Hk. induction l as [|[k' v'] l IH]; simpl; [rewrite Hk; reflexivity|].
  destruct (eqb k' k) eqn:E; simpl; rewrite E; [reflexivity|exact IH].
Qed.

Lemma key_eqb_refl : forall k, key_eqb k k = true.
Proof. intros [|f]; simpl; [reflexivity|apply Qeq_bool_refl']. Qed.

Lemma devs_d_del_nodup :
  forall k l, NoDup (devs l) -> NoDup (devs (d_del key_eqb k l)).
Proof.
  intros k l. induction l as [|[k' v'] l IH]; simpl; intro H; [constructor|].
  inversion H as [|? ? Hni Hnd]; subst.
  destruct (key_eqb k' k); [exact Hnd|]. simpl. constructor; [|auto].
  intro Hin. apply Hni. unfold devs in *. apply in_map_iff in Hin.
  destruct Hin as [p [Hp Hin]]. apply in_map_iff. exists p. split; [exact Hp|].
  eapply d_del_in; exact Hin.
Qed.

Lemma devs_d_del_other :
  forall k l e, d_get key_eqb k l = Some e -> NoDup (devs l) ->
    forall p, In p (d_del key_eqb k l) -> device_idx (snd p) <> device_idx e.
Proof.
  intros k l e. induction l as [|[k' v'] l IH]; simpl; intros Hg Hnd p Hin; [discriminate|].
  inversion Hnd as [|? ? Hni Hnd']; subst.
  destruct (key_eqb k' k).
  - injection Hg as ->. intro Heq. apply Hni. unfold devs. apply in_map_iff.
    exists p. auto.
  - destruct Hin as [<-|Hin]; [|exact (IH Hg Hnd' p Hin)].
    simpl. intro Heq. apply Hni. destruct (d_get_in key_eqb k l e Hg) as [k'' [Hin' _]].
    unfold devs. apply in_map_iff. exists (k'', e). auto.
Qed.

Lemma devs_d_set_in :
  forall k v l x, In x (devs (d_set key_eqb k v l)) -> In x (devs l) \/ x = device_idx v.
Proof.
  intros k v l x H. unfold devs in H. apply in_map_iff in H. destruct H as [p [<- Hin]].
  destruct (d_set_in key_eqb k v l p Hin) as [H|H].
  - left. unfold devs. apply in_map_iff. exists p. auto.
  - right. rewrite H. reflexivity.
Qed.

Lemma devs_d_set_nodup :
  forall k v l, NoDup (devs l) -> ~ In (device_idx v) (devs l) -> NoDup (devs (d_set key_eqb k v l)).
Proof.
  intros k v l. induction l as [|[k' v'] l IH]; simpl; intros Hnd Hni.
  - constructor; [intros []|constructor].
  - inversion Hnd as [|? ? Hni' Hnd']; subst.
    destruct (key_eqb k' k); simpl; constructor.
    + intro H. apply Hni. right. exact H.
    + exact Hnd'.
    + intro H. destruct (devs_d_set_in k v l _ H) as [H'|H']; [exact (Hni' H')|].
      apply Hni. left. exact H'.
    + apply IH; [exact Hnd'|]. intro H. apply Hni. right. exact H.
Qed.

Lemma devs_d_set_same :
  forall k v l e0, d_get key_eqb k l = Some e0 -> device_idx e0 = device_idx v ->
    devs (d_set key_eqb k v l) = devs l.
Proof.
  intros k v l e0. induction l as [|[k' v'] l IH]; simpl; intros Hg Hd; [discriminate|].
  destruct (key_eqb k' k).
  - injection Hg as ->. simpl. rewrite Hd. reflexivity.
  - simpl. rewrite (IH Hg Hd). reflexivity.
Qed.

(** ** Preservation of the registry invariant *)

Lemma inv_proj :
  forall st st', sdr_list st = sdr_list st' -> task_list st = task_list st' -> inv st -> inv st'.
Proof. intros st st' E1 E2 H. unfold inv in *. rewrite <- E1, <- E2. exact H. Qed.

Ltac inv_by H := eapply inv_proj; [reflexivity|reflexivity|exact H].

Lemma inv_update_sdr :
  forall st idx f l,
    inv st -> (forall s, in_use s = true -> in_use (f s) = true) ->
    sdr_update idx f (sdr_list st) = Some l -> inv (set_sdr_list l st).
Proof.
  intros st idx f l [H1 [H2 H3]] Hf Hu. unfold inv, set_sdr_list; simpl.
  split; [rewrite (sdr_update_keys _ _ _ _ Hu); exact H1|]. split; [|exact H3].
  intros k e Hin. destruct (H2 k e Hin) as [s [Hs Hus]].
  rewrite (sdr_update_get _ _ _ _ Hu), Hs.
  destruct (String.eqb idx (device_idx e)); simpl; eauto.
Qed.

Lemma inv_release :
  forall st k e l1 l2,
    inv st -> d_get key_eqb k (task_list st) = Some e ->
    sdr_update (device_idx e) (set_in_use false) (sdr_list st) = Some l1 ->
    sdr_update (device_idx e) (set_sdr_task None) l1 = Some l2 ->
    inv (set_task_list (d_del key_eqb k (task_list st)) (set_sdr_list l2 st)).
Proof.
  intros st k e l1 l2 [H1 [H2 H3]] Hg Hu1 Hu2. unfold inv, set_task_list, set_sdr_list; simpl.
  split; [rewrite (sdr_update_keys _ _ _ _ Hu2), (sdr_update_keys _ _ _ _ Hu1); exact H1|].
  split; [|apply devs_d_del_nodup; exact H3].
  intros k' e' Hin.
  pose proof (devs_d_del_other k _ e Hg H3 (k', e') Hin) as Hne. simpl in Hne.
  destruct (H2 k' e' (d_del_in _ _ _ _ Hin)) as [s [Hs Hus]].
  exists s. rewrite (sdr_update_get _ _ _ _ Hu2), (sdr_update_get _ _ _ _ Hu1).
  destruct (String.eqb_spec (device_idx e) (device_idx e')); [congruence|]. auto.
Qed.

(** Releasing the device of a registered task cannot fail half-way. *)
Lemma release_second_update :
  forall st k e l1 f,
    inv st -> d_get key_eqb k (task_list st) = Some e ->
    sdr_update (device_idx e) (set_in_use false) (sdr_list st) = Some l1 ->
    exists l2, sdr_update (device_idx e) f l1 = Some l2.
Proof.
  intros st k e l1 f [H1 [H2 H3]] Hg Hu1. apply sdr_update_some.
  rewrite (sdr_update_keys _ _ _ _ Hu1).
  destruct (d_get_in _ _ _ _ Hg) as [k0 [Hin _]]. destruct (H2 k0 e Hin) as [s [Hs _]].
  exact (sdr_get_in _ _ _ Hs).
Qed.

Lemma inv_register :
  forall st k idx x,
    inv st -> ~ In idx (devs (task_list st)) ->
    (exists s, sdr_get idx (sdr_list st) = Some s /\ in_use s = true) ->
    inv (set_task_list (d_set key_eqb k (mkEntry idx x) (task_list st)) st).
Proof.
  intros st k idx x [H1 [H2 H3]] Hni Hs. unfold inv, set_task_list; simpl.
  split; [exact H1|]. split.
  - intros k' e' Hin. destruct (d_set_in _ _ _ _ _ Hin) as [H|H]; simpl in H;
      [exact (H2 _ _ H)|subst e'; exact Hs].
  - apply devs_d_set_nodup; assumption.
Qed.

Lemma inv_reregister :
  forall st k e0 x,
    inv st -> d_get key_eqb k (task_list st) = Some e0 ->
    inv (set_task_list (d_set key_eqb k (mkEntry (device_idx e0) x) (task_list st)) st).
Proof.
  intros st k e0 x Hinv Hg. pose proof Hinv as [H1 [H2 H3]]. unfold inv, set_task_list; simpl.
  split; [exact H1|]. split.
  - intros k' e' Hin. destruct (d_set_in _ _ _ _ _ Hin) as [H|H]; simpl in H;
      [exact (H2 _ _ H)|subst e'; simpl].
    destruct (d_get_in _ _ _ _ Hg) as [k0 [Hin0 _]]. exact (H2 _ _ Hin0).
  - rewrite (devs_d_set_same k (mkEntry (device_idx e0) x) _ e0 Hg eq_refl). exact H3.
Qed.

Lemma allocate_sdr_spec :
  forall st, inv st ->
    match allocate_sdr false st with
    | Ret None st' => st' = st
    | Ret (Some idx) st' =>
        inv st' /\ task_list st' = task_list st /\
        temporary_block_list st' = temporary_block_list st /\
        scan_results st' = scan_results st /\
        ~ In idx (devs (task_list st')) /\
        exists s, sdr_get idx (sdr_list st') = Some s /\ in_use s = true
    | Raise _ st' => st' = st
    end.
Proof.
  intros st Hinv. pose proof Hinv as [H1 [H2 H3]].
  unfold allocate_sdr, update_sdr. unfold_monad.
  destruct (first_free (sdr_list st)) as [idx|] eqn:Hff; [|reflexivity].
  destruct (sdr_update idx (set_in_use true) (sdr_list st)) as [l|] eqn:Hu; [|reflexivity].
  simpl. destruct (first_free_spec _ _ H1 Hff) as [s0 [Hs0 Hf]].
  split; [apply (inv_update_sdr st idx (set_in_use true) l Hinv); [reflexivity|exact Hu]|].
  split; [reflexivity|]. split; [reflexivity|]. split; [reflexivity|]. split.
  - intro Hin. unfold devs in Hin. apply in_map_iff in Hin. destruct Hin as [[k e] [Hd Hin]].
    simpl in Hd. subst idx. destruct (H2 k e Hin) as [s [Hs Hus]]. congruence.
  - rewrite (sdr_update_get _ _ _ _ Hu), String.eqb_refl, Hs0. simpl.
    eexists; split; reflexivity.
Qed.

Lemma inv_start_scanner : forall st, inv st -> inv (state_of (start_scanner st)).
Proof.
  intros st Hinv. unfold start_scanner. unfold bind at 1, get at 1.
  destruct (d_mem key_eqb KScan (task_list st)); [exact Hinv|].
  unfold bind at 1. pose proof (allocate_sdr_spec st Hinv) as Ha.
  destruct (allocate_sdr false st) as [[idx|] st1|ex st1]; simpl in *; try (subst; exact Hinv).
  destruct Ha as [Hinv1 [_ [_ [_ [Hni Hs]]]]].
  unfold update_sdr. unfold_monad.
  pose proof (inv_register st1 KScan idx None Hinv1 Hni Hs) as Hinv2.
  pose proof (inv_reregister _ KScan (mkEntry idx None) (Some (new_worker Scanner)) Hinv2
                (d_get_set_same key_eqb KScan _ _ (key_eqb_refl KScan))) as Hinv3.
  destruct (sdr_update idx (set_sdr_task (Some (new_worker Scanner))) _) as [l|] eqn:Hu; simpl.
  - eapply inv_proj; [| |exact (inv_update_sdr _ idx (set_sdr_task (Some (new_worker Scanner))) l Hinv3 (fun s H => H) Hu)]; reflexivity.
  - inv_by Hinv3.
Qed.

Lemma inv_stop_scanner : forall st, inv st -> inv (state_of (stop_scanner st)).
Proof.
  intros st Hinv. unfold stop_scanner, update_sdr. unfold_monad.
  destruct (d_get key_eqb KScan (task_list st)) as [e|] eqn:Hg; simpl; [|exact Hinv].
  destruct (e_task e); simpl; [|exact Hinv].
  destruct (sdr_update (device_idx e) (set_in_use false) (sdr_list st)) as [l1|] eqn:Hu1;
    simpl; [|exact Hinv].
  destruct (release_second_update st KScan e l1 (set_sdr_task None) Hinv Hg Hu1) as [l2 Hu2].
  rewrite Hu2. simpl. inv_by (inv_release st KScan e l1 l2 Hinv Hg Hu1 Hu2).
Qed.

Lemma inv_start_decoder_rest :
  forall DRIFTY cfg freq ty st, inv st -> inv (state_of (start_decoder_rest DRIFTY cfg freq ty st)).
Proof.
  intros DRIFTY cfg freq ty st Hinv. unfold start_decoder_rest. unfold bind at 1, get at 1.
  unfold bind at 1.
  pose proof (spacing_loop_state DRIFTY cfg freq ty (map fst (task_list st)) st) as Hs.
  destruct (spacing_loop DRIFTY cfg freq ty (map fst (task_list st)) st) as [c st0|ex st0];
    simpl in Hs; subst st0; [|exact Hinv].
  destruct c; [exact Hinv|].
  unfold bind at 1. pose proof (allocate_sdr_spec st Hinv) as Ha.
  destruct (allocate_sdr false st) as [[idx|] st1|ex st1]; simpl in *; try (subst; exact Hinv).
  destruct Ha as [Hinv1 [_ [_ [_ [Hni Hs]]]]].
  pose proof (inv_register st1 (KFreq freq) idx None Hinv1 Hni Hs) as Hinv2.
  unfold update_sdr. unfold_monad.
  destruct (sdr_update idx (set_in_use true) _) as [l|] eqn:Hu; simpl; [|inv_by Hinv2].
  pose proof (inv_update_sdr _ idx (set_in_use true) l Hinv2 (fun s _ => eq_refl) Hu) as Hinv3.
  destruct (d_get String.eqb ty (experimental_decoders cfg)); simpl; [|inv_by Hinv3].
  pose proof (inv_reregister _ (KFreq freq) (mkEntry idx None)
                (Some (new_worker (Decoder ty freq))) Hinv3
                (d_get_set_same key_eqb (KFreq freq) _ _ (key_eqb_refl (KFreq freq)))) as Hinv4.
  destruct (sdr_update idx (set_sdr_task (Some (new_worker (Decoder ty freq)))) _) as [l2|] eqn:Hu2;
    simpl; [|inv_by Hinv4].
  inv_by (inv_update_sdr _ idx (set_sdr_task (Some (new_worker (Decoder ty freq)))) l2 Hinv4
            (fun s H => H) Hu2).
Qed.

Lemma inv_start_decoder :
  forall DRIFTY cfg now freq ty st, inv st -> inv (state_of (start_decoder DRIFTY cfg now freq ty st)).
Proof.
  intros DRIFTY cfg now freq ty st Hinv. unfold start_decoder. unfold_monad.
  destruct (d_get num_eqb freq (temporary_block_list st)).
  - destruct (Qltb _ _); [exact Hinv|].
    apply inv_start_decoder_rest. inv_by Hinv.
  - apply inv_start_decoder_rest. exact Hinv.
Qed.

Lemma preserves_bind {A B} (m : M A) (k : A -> M B) :
  preserves m -> (forall x, preserves (k x)) -> preserves (bind m k).
Proof.
  intros Hm Hk st Hinv. unfold bind. specialize (Hm st Hinv).
  destruct (m st) as [x st'|e st']; simpl in *; [apply Hk|]; exact Hm.
Qed.

Lemma preserves_ret {A} (x : A) : preserves (ret x).
Proof. intros st H; exact H. Qed.

Lemma inv_handle_batch :
  forall VALID DRIFTY cfg now batch st, inv st ->
    inv (state_of (handle_batch VALID DRIFTY cfg now batch st)).
Proof.
  intros VALID DRIFTY cfg now batch. induction batch as [|[f ty] batch IH]; intros st Hinv;
    [exact Hinv|].
  simpl. unfold bind at 1, get at 1.
  destruct (d_mem key_eqb (KFreq f) (task_list st)); [apply IH; exact Hinv|].
  destruct (negb (str_in (strip_inverted ty) VALID)); [apply IH; exact Hinv|].
  unfold bind at 1. pose proof (allocate_check_only_state st) as Ha.
  destruct (allocate_sdr true st) as [free st1|ex st1]; simpl in Ha; subst st1; [|exact Hinv].
  revert st Hinv. apply preserves_bind; [|intros _; exact IH].
  destruct free as [idx|].
  - intros st Hinv. apply inv_start_decoder. exact Hinv.
  - intros st Hinv. unfold bind at 1, get at 1.
    destruct (d_mem key_eqb KScan (task_list st)); [|exact Hinv].
    revert st Hinv. apply preserves_bind.
    + exact inv_stop_scanner.
    + intros _ st Hinv. apply inv_start_decoder. exact Hinv.
Qed.

Lemma inv_handle_scan_results :
  forall VALID DRIFTY cfg now st, inv st ->
    inv (state_of (handle_scan_results VALID DRIFTY cfg now st)).
Proof.
  intros VALID DRIFTY cfg now st Hinv. unfold handle_scan_results. unfold_monad.
  destruct (scan_results st) as [|batch q]; [exact Hinv|].
  apply inv_handle_batch. inv_by Hinv.
Qed.

Lemma inv_clean_one : forall now k, preserves (clean_one now k).
Proof.
  intros now k st Hinv. unfold clean_one. unfold bind at 1, get at 1.
  destruct (d_get key_eqb k (task_list st)) as [e|] eqn:Hg; [|exact Hinv].
  destruct (e_task e) as [t|]; [|exact Hinv].
  destruct (t_running t) as [[|]|], (t_exit_state t) as [x|]; try exact Hinv.
  unfold bind at 1.
  match goal with
  | |- inv (state_of (match ?p st with Ret _ _ => _ | Raise _ _ => _ end)) =>
      assert (Hp : sdr_list (state_of (p st)) = sdr_list st /\
                   task_list (state_of (p st)) = task_list st);
      [|destruct (p st) as [u st1|ex st1]; simpl in Hp; destruct Hp as [Hp1 Hp2]]
  end.
  - destruct (String.eqb x "Encrypted"); [|split; reflexivity].
    destruct k as [|f]; [split; reflexivity|]. unfold_monad; simpl.
    destruct (d_mem key_eqb KScan _); split; reflexivity.
  - assert (Hinv1 : inv st1) by (exact (inv_proj st st1 (eq_sym Hp1) (eq_sym Hp2) Hinv)).
    assert (Hg1 : d_get key_eqb k (task_list st1) = Some e) by (rewrite Hp2; exact Hg).
    unfold update_sdr; unfold_monad.
    destruct (sdr_update (device_idx e) (set_in_use false) (sdr_list st1)) as [l1|] eqn:Hu1;
      [|exact Hinv1].
    destruct (release_second_update st1 k e l1 (set_sdr_task None) Hinv1 Hg1 Hu1) as [l2 Hu2].
    simpl. rewrite Hu2. simpl.
    exact (inv_release st1 k e l1 l2 Hinv1 Hg1 Hu1 Hu2).
  - exact (inv_proj st st1 (eq_sym Hp1) (eq_sym Hp2) Hinv).
Qed.

Lemma preserves_get : preserves get.
Proof. intros st H; exact H. Qed.

Lemma preserves_raise {A} e : preserves (raise (A:=A) e).
Proof. intros st H; exact H. Qed.

Lemma inv_clean_tasks_loop : forall now n0 ks, preserves (clean_tasks_loop now n0 ks).
Proof.
  intros now n0 ks. induction ks as [|k ks IH]; cbn [clean_tasks_loop];
    apply preserves_bind; try exact preserves_get; intros st0;
    destruct (negb _); try apply preserves_raise; try apply preserves_ret.
  apply preserves_bind; [apply inv_clean_one|intros _; exact IH].
Qed.

Lemma inv_clean_blocks_loop : forall cfg now n0 fs, preserves (clean_blocks_loop cfg now n0 fs).
Proof.
  intros cfg now n0 fs. induction fs as [|f fs IH]; cbn [clean_blocks_loop];
    apply preserves_bind; try exact preserves_get; intros st0;
    destruct (negb _); try apply preserves_raise; try apply preserves_ret.
  apply preserves_bind; [|intros _; exact IH].
  destruct (d_get num_eqb f _); [|apply preserves_raise].
  destruct (Qltb _ _); [|apply preserves_ret].
  intros st H. inv_by H.
Qed.

Lemma inv_clean_task_list : forall cfg now, preserves (clean_task_list cfg now).
Proof.
  intros cfg now. unfold clean_task_list.
  apply preserves_bind; [exact preserves_get|intros st0].
  apply preserves_bind; [apply inv_clean_tasks_loop|intros _].
  apply preserves_bind; [exact preserves_get|intros st1].
  apply preserves_bind; [apply inv_clean_blocks_loop|intros _].
  apply preserves_bind; [exact preserves_get|intros st2].
  destruct (d_mem _ _ _); [apply preserves_ret|].
  apply preserves_bind.
  - intros st H. pose proof (allocate_check_only_state st) as E.
    destruct (allocate_sdr true st); simpl in *; subst; exact H.
  - intros [x|]; [exact inv_start_scanner|apply preserves_ret].
Qed.

Lemma inv_step :
  forall VALID DRIFTY cfg st st', step VALID DRIFTY cfg st st' -> inv st -> inv st'.
Proof.
  intros VALID DRIFTY cfg st st' Hs Hinv. destruct Hs.
  - exact (inv_start_scanner st Hinv).
  - exact (inv_stop_scanner st Hinv).
  - exact (inv_start_decoder DRIFTY cfg now f ty st Hinv).
  - exact (inv_handle_scan_results VALID DRIFTY cfg now st Hinv).
  - exact (inv_clean_task_list cfg now st Hinv).
  - inv_by Hinv.
  - exact (inv_reregister st k e (Some t') Hinv H).
Qed.

Lemma inv_reachable :
  forall VALID DRIFTY cfg st, reachable VALID DRIFTY cfg st -> inv st.
Proof.
  intros VALID DRIFTY cfg st Hr. induction Hr as [sdrs Hnd Hfree|st st' Hr IH Hs].
  - unfold inv; simpl. split; [exact Hnd|]. split; [intros k e []|constructor].
  - exact (inv_step _ _ _ _ _ Hs IH).
Qed.

(** C8: in every state reachable from start-up by the scheduler's
    operations (and by the scanner and worker threads), every registered
    task's device exists and has [in_use] set; hence the number of registered
    tasks, and the number of devices in use, never exceed the pool size. *)
Theorem reachable_tasks_hold_in_use_devices :
  forall VALID DRIFTY cfg st,
    reachable VALID DRIFTY cfg st ->
    (forall k e, In (k, e) (task_list st) ->
       exists s, sdr_get (device_idx e) (sdr_list st) = Some s /\ in_use s = true) /\
    (List.length (task_list st) <= List.length (sdr_list st))%nat /\
    (in_use_count st <= List.length (sdr_list st))%nat.
Proof.
  intros VALID DRIFTY cfg st Hr.
  destruct (inv_reachable _ _ _ _ Hr) as [H1 [H2 H3]].
  split; [exact H2|]. split.
  - rewrite <- (length_map fst (sdr_list st)).
    replace (List.length (task_list st)) with (List.length (devs (task_list st)))
      by (unfold devs; apply length_map).
    apply NoDup_incl_length; [exact H3|].
    intros idx Hin. unfold devs in Hin. apply in_map_iff in Hin.
    destruct Hin as [[k e] [Heq Hin]]. simpl in Heq. subst idx.
    destruct (H2 k e Hin) as [s [Hs _]]. exact (sdr_get_in _ _ _ Hs).
  - unfold in_use_count. apply filter_length_le.
Qed.

Lemma reachable_tasks_hold_in_use_devices_witness :
  let st := state_of (start_scanner (mkState [("0"%string, sdr_example false)] [] [] [])) in
  reachable VALID_example DRIFTY_example cfg_example st /\
  (List.length (task_list st) <= List.length (sdr_list st))%nat.
Proof.
  intro st.
  assert (Hr : reachable VALID_example DRIFTY_example cfg_example st).
  { eapply reach_step; [apply reach_init|apply step_start_scanner].
    - constructor; [intros []|constructor].
    - intros i s [H|[]]. inversion H. reflexivity. }
  split; [exact Hr|].
  exact (proj1 (proj2 (reachable_tasks_hold_in_use_devices _ _ _ _ Hr))).
Defined.

(** C6: when the state query of a registered task raises ([running()] or
    [exit_state] fails, or the task is [None]), the reap pass swallows the
    exception: that key's step changes nothing and raises nothing, and the
    loop over the remaining keys proceeds exactly as if that key had not
    been visited. *)
Theorem clean_task_list_query_failure_isolated :
  forall now k e st,
    d_get key_eqb k (task_list st) = Some e -> query_fails e ->
    clean_one now k st = Ret tt st /\
    (forall n0 ks, clean_tasks_loop now n0 (k :: ks) st = clean_tasks_loop now n0 ks st).
Proof.
  intros now k e st Hg Hq.
  assert (H1 : clean_one now k st = Ret tt st).
  { unfold clean_one. unfold bind at 1, get at 1. rewrite Hg.
    unfold query_fails in Hq. destruct (e_task e) as [t|]; [|reflexivity].
    destruct Hq as [Hq|Hq]; rewrite Hq; [reflexivity|].
    destruct (t_running t); reflexivity. }
  split; [exact H1|].
  intros n0 ks. cbn [clean_tasks_loop]. unfold bind at 1, get at 1.
  destruct (negb _) eqn:E.
  - destruct ks; cbn [clean_tasks_loop]; unfold bind, get; rewrite E; reflexivity.
  - unfold bind. rewrite H1. reflexivity.
Qed.

Lemma clean_task_list_query_failure_isolated_witness :
  let st := mkState [("0"%string, sdr_example true)]
              [(KFreq (PyInt 401500000), mkEntry "0" None)] [] [] in
  d_get key_eqb (KFreq (PyInt 401500000)) (task_list st) = Some (mkEntry "0" None) /\
  query_fails (mkEntry "0" None) /\
  clean_one 1000 (KFreq (PyInt 401500000)) st = Ret tt st.
Proof.
  intro st.
  assert (Hg : d_get key_eqb (KFreq (PyInt 401500000)) (task_list st) = Some (mkEntry "0" None))
    by reflexivity.
  assert (Hq : query_fails (mkEntry "0" None)) by (simpl; exact I).
  split; [exact Hg|]. split; [exact Hq|].
  exact (proj1 (clean_task_list_query_failure_isolated 1000 _ _ st Hg Hq)).
Defined.

Lemma start_decoder_spacing_rejects_witness :
  let st' := state_of (start_decoder DRIFTY_example cfg_example 1000 (PyFloat 401505000) "RS92"
                         st_drifty) in
  sdr_list st' = sdr_list st_drifty /\ task_list st' = task_list st_drifty /\
  scan_results st' = scan_results st_drifty /\
  (temporary_block_list st' = temporary_block_list st_drifty \/
   exists began, d_get num_eqb (PyFloat 401505000) (temporary_block_list st_drifty) = Some began /\
     block_ttl cfg_example <= 1000 - began /\
     temporary_block_list st' = d_del num_eqb (PyFloat 401505000) (temporary_block_list st_drifty)).
Proof.
  apply (start_decoder_spacing_rejects DRIFTY_example cfg_example 1000 (PyFloat 401505000) "RS92"
           st_drifty 401500000
           (mkEntry "0" (Some (new_worker (Decoder "RS92" (PyInt 401500000)))))
           (new_worker (Decoder "RS92" (PyInt 401500000))) (PyInt 401500000)).
  - simpl. left. reflexivity.
  - reflexivity.
  - reflexivity.
  - reflexivity.
  - reflexivity.
  - vm_compute. reflexivity.
Defined.

Lemma start_decoder_block_ttl_witness :
  start_decoder DRIFTY_example cfg_example 100 (PyFloat 401505000) "RS92" st_drifty
  = Ret tt st_drifty.
Proof.
  apply (proj1 (start_decoder_block_ttl DRIFTY_example cfg_example 100 (PyFloat 401505000) "RS92"
                  st_drifty 0 eq_refl)).
  vm_compute. reflexivity.
Defined.

Lemma telemetry_filter_zero_position_rejects_witness :
  telemetry_filter (fun _ _ => 0) cfg_example (mkTelemetry "S1234567" 0 0 1000 (Some 8%Z) "RS41")
  = false.
Proof.
  apply telemetry_filter_zero_position_rejects; reflexivity.
Defined.

Lemma telemetry_filter_altitude_cap_boundary_witness :
  let t := mkTelemetry "123456" 60 25 0 (Some 8%Z) "M10" in
  telemetry_filter (fun _ _ => 0) cfg_example (with_alt t 50000) = true /\
  telemetry_filter (fun _ _ => 0) cfg_example (with_alt t (50000 + 1)) = false.
Proof.
  apply (telemetry_filter_altitude_cap_boundary (fun _ _ => 0) cfg_example
           (mkTelemetry "123456" 60 25 0 (Some 8%Z) "M10")); reflexivity.
Defined.

Lemma telemetry_filter_radius_gate_witness :
  let cfg := mkConfig 2 15000 50000 60 25 0 100 [] in
  telemetry_filter (fun _ _ => 200000) cfg (mkTelemetry "S1234567" 61 25 1000 None "RS41") = false.
Proof.
  apply (proj2 (telemetry_filter_radius_gate (mkConfig 2 15000 50000 60 25 0 100 [])
                  (mkTelemetry "S1234567" 61 25 1000 None "RS41")));
    try (vm_compute; discriminate); reflexivity.
Defined.

Lemma clean_task_list_removal_raises_runtime_error_witness :
  exists s, clean_task_list cfg_example 1000 st_reaped = Raise RuntimeError s.
Proof.
  apply clean_task_list_removal_raises_runtime_error. left.
  exists (KFreq (PyFloat 401500000)). split.
  - simpl. left. reflexivity.
  - vm_compute. intros [].
Defined.

(** ** Footprints *)

Lemma tl_steps_trans : forall l1 l2 l3, tl_steps l1 l2 -> tl_steps l2 l3 -> tl_steps l1 l3.
Proof.
  intros l1 l2 l3 H12. induction H12 as [l|k v l l' H IH|k l l' H IH]; intro H23;
    [exact H23|eapply tl_set; auto|eapply tl_del; auto].
Qed.

Lemma frame_refl : forall st, frame st st.
Proof. intro st. split; [reflexivity|apply tl_refl]. Qed.

Lemma frame_trans : forall s1 s2 s3, frame s1 s2 -> frame s2 s3 -> frame s1 s3.
Proof.
  intros s1 s2 s3 [E1 T1] [E2 T2]. split; [congruence|eapply tl_steps_trans; eauto].
Qed.

Lemma keeps_bind {A B} (R : state -> state -> Prop) (m : M A) (k : A -> M B) :
  (forall s1 s2 s3, R s1 s2 -> R s2 s3 -> R s1 s3) ->
  keeps R m -> (forall x, keeps R (k x)) -> keeps R (bind m k).
Proof.
  intros Htr Hm Hk st. unfold bind. specialize (Hm st).
  destruct (m st) as [x st'|e st']; simpl in *; [|exact Hm].
  exact (Htr _ _ _ Hm (Hk x st')).
Qed.

Lemma frame_bind {A B} (m : M A) (k : A -> M B) :
  keeps frame m -> (forall x, keeps frame (k x)) -> keeps frame (bind m k).
Proof. apply keeps_bind. exact frame_trans. Qed.

Lemma frame_get : keeps frame get.
Proof. intro st. apply frame_refl. Qed.

Lemma frame_ret {A} (x : A) : keeps frame (ret x).
Proof. intro st. apply frame_refl. Qed.

Lemma frame_raise {A} e : keeps frame (raise (A:=A) e).
Proof. intro st. apply frame_refl. Qed.

Lemma frame_update_sdr idx f : keeps frame (update_sdr idx f).
Proof.
  intro st. unfold update_sdr.
  destruct (sdr_update idx f (sdr_list st)); (split; [reflexivity|apply tl_refl]).
Qed.

Ltac frame_tac :=
  repeat (cbv zeta; match goal with
  | |- keeps frame (bind _ _) => apply frame_bind; [|intros ?]
  | |- keeps frame get => apply frame_get
  | |- keeps frame (ret _) => apply frame_ret
  | |- keeps frame (raise _) => apply frame_raise
  | |- keeps frame (update_sdr _ _) => apply frame_update_sdr
  | |- keeps frame (modify _) =>
      let st := fresh "st" in
      intro st; split; [reflexivity|]; simpl;
      first [apply tl_refl | eapply tl_set; apply tl_refl | eapply tl_del; apply tl_refl]
  | |- keeps frame (if ?b then _ else _) => destruct b
  | |- keeps frame (match ?x with _ => _ end) => destruct x
  end).

Lemma frame_allocate_sdr b : keeps frame (allocate_sdr b).
Proof. unfold allocate_sdr. frame_tac. Qed.

Lemma frame_start_scanner : keeps frame start_scanner.
Proof. unfold start_scanner. frame_tac; apply frame_allocate_sdr. Qed.

Lemma frame_stop_scanner : keeps frame stop_scanner.
Proof. unfold stop_scanner. frame_tac. Qed.

Lemma frame_spacing_loop DRIFTY cfg freq ty ks : keeps frame (spacing_loop DRIFTY cfg freq ty ks).
Proof.
  induction ks as [|k ks IH]; simpl; [apply frame_ret|].
  destruct k as [|[z|q]]; try exact IH. frame_tac; exact IH.
Qed.

Lemma frame_start_decoder DRIFTY cfg now freq ty : keeps frame (start_decoder DRIFTY cfg now freq ty).
Proof.
  unfold start_decoder, start_decoder_rest. frame_tac;
    first [apply frame_spacing_loop | apply frame_allocate_sdr].
Qed.

Lemma frame_handle_batch VALID DRIFTY cfg now batch :
  keeps frame (handle_batch VALID DRIFTY cfg now batch).
Proof.
  induction batch as [|[f ty] batch IH]; simpl; frame_tac;
    first [exact IH | apply frame_allocate_sdr | apply frame_start_decoder | apply frame_stop_scanner].
Qed.

Lemma frame_clean_one now k : keeps frame (clean_one now k).
Proof. unfold clean_one. frame_tac. Qed.

Lemma frame_clean_task_list cfg now : keeps frame (clean_task_list cfg now).
Proof.
  unfold clean_task_list. frame_tac.
  - generalize (map fst (task_list x)). intro ks. induction ks; simpl; frame_tac;
      first [exact IHks | apply frame_clean_one].
  - generalize (map fst (temporary_block_list x1)). intro fs. induction fs; simpl; frame_tac.
    exact IHfs.
  - apply frame_allocate_sdr.
  - apply frame_start_scanner.
Qed.

(** ** Key uniqueness of the registry *)

Lemma key_eqb_sym : forall a b, key_eqb a b = key_eqb b a.
Proof.
  intros [|x] [|y]; simpl; try reflexivity. unfold num_eqb.
  apply Bool.eq_true_iff_eq. rewrite !Qeq_bool_iff. split; intro H; symmetry; exact H.
Qed.

Lemma key_eqb_trans : forall a b c, key_eqb a b = true -> key_eqb b c = true -> key_eqb a c = true.
Proof.
  intros [|x] [|y] [|z]; simpl; try discriminate; try reflexivity. unfold num_eqb.
  rewrite !Qeq_bool_iff. intros H1 H2. rewrite H1. exact H2.
Qed.

Lemma d_get_del_other :
  forall k k' (l : list (key * entry)), key_eqb k k' = false ->
    d_get key_eqb k (d_del key_eqb k' l) = d_get key_eqb k l.
Proof.
  intros k k' l Hk. induction l as [|[kk v] l IH]; simpl; [reflexivity|].
  destruct (key_eqb kk k') eqn:E1.
  - destruct (key_eqb kk k) eqn:E2; [|reflexivity].
    rewrite key_eqb_sym in E2. pose proof (key_eqb_trans _ _ _ E2 E1). congruence.
  - simpl. rewrite IH. reflexivity.
Qed.

Lemma d_get_set_other :
  forall k k' (v : entry) l, key_eqb k k' = false ->
    d_get key_eqb k (d_set key_eqb k' v l) = d_get key_eqb k l.
Proof.
  intros k k' v l Hk. induction l as [|[kk v'] l IH]; simpl.
  - rewrite key_eqb_sym, Hk. reflexivity.
  - destruct (key_eqb kk k') eqn:E1; simpl.
    + destruct (key_eqb kk k) eqn:E2; [|reflexivity].
      rewrite key_eqb_sym in E2. pose proof (key_eqb_trans _ _ _ E2 E1). congruence.
    + rewrite IH. reflexivity.
Qed.

Lemma d_get_none_del :
  forall k k' (l : list (key * entry)), d_get key_eqb k l = None -> d_get key_eqb k (d_del key_eqb k' l) = None.
Proof.
  intros k k' l. induction l as [|[kk v] l IH]; simpl; intro H; [reflexivity|].
  destruct (key_eqb kk k) eqn:E; [discriminate|].
  destruct (key_eqb kk k'); [exact H|]. simpl. rewrite E. exact (IH H).
Qed.

Lemma keys_unique_set : forall k v l, keys_unique l -> keys_unique (d_set key_eqb k v l).
Proof.
  intros k v l. induction l as [|[kk v'] l IH]; simpl; intro H.
  - split; [reflexivity|exact I].
  - destruct H as [Hm Hu]. destruct (key_eqb kk k) eqn:E; simpl; [split; assumption|].
    split; [|exact (IH Hu)].
    unfold d_mem in *. rewrite d_get_set_other; assumption.
Qed.

Lemma keys_unique_del : forall k l, keys_unique l -> keys_unique (d_del key_eqb k l).
Proof.
  intros k l. induction l as [|[kk v'] l IH]; simpl; intro H; [exact I|].
  destruct H as [Hm Hu]. destruct (key_eqb kk k); [exact Hu|]. simpl.
  split; [|exact (IH Hu)].
  unfold d_mem in *. destruct (d_get key_eqb kk l) eqn:E; [discriminate|].
  rewrite (d_get_none_del _ _ _ E). reflexivity.
Qed.

Lemma keys_unique_steps : forall l l', tl_steps l l' -> keys_unique l -> keys_unique l'.
Proof.
  intros l l' H. induction H; intro Hu; auto using keys_unique_set, keys_unique_del.
Qed.

Lemma tl_steps_handle_scan_results VALID DRIFTY cfg now st :
  tl_steps (task_list st) (task_list (state_of (handle_scan_results VALID DRIFTY cfg now st))).
Proof.
  unfold handle_scan_results. unfold bind at 1, get at 1.
  destruct (scan_results st) as [|batch q]; [apply tl_refl|].
  unfold bind, modify.
  exact (proj2 (frame_handle_batch VALID DRIFTY cfg now batch (set_scan_results q st))).
Qed.

(** Every operation but [handle_scan_results] leaves the detection queue
    alone, whatever its outcome; [handle_scan_results] removes exactly the
    batch at its head, also when serving that batch raises. *)
Theorem scan_results_queue_discipline :
  forall VALID DRIFTY cfg now f ty st,
    scan_results (state_of (start_scanner st)) = scan_results st /\
    scan_results (state_of (stop_scanner st)) = scan_results st /\
    scan_results (state_of (start_decoder DRIFTY cfg now f ty st)) = scan_results st /\
    scan_results (state_of (clean_task_list cfg now st)) = scan_results st /\
    scan_results (state_of (handle_scan_results VALID DRIFTY cfg now st)) = tl (scan_results st).
Proof.
  intros VALID DRIFTY cfg now f ty st.
  split; [exact (proj1 (frame_start_scanner st))|].
  split; [exact (proj1 (frame_stop_scanner st))|].
  split; [exact (proj1 (frame_start_decoder DRIFTY cfg now f ty st))|].
  split; [exact (proj1 (frame_clean_task_list cfg now st))|].
  unfold handle_scan_results. unfold bind at 1, get at 1.
  destruct (scan_results st) as [|batch q] eqn:E; [exact E|].
  unfold bind, modify.
  exact (proj1 (frame_handle_batch VALID DRIFTY cfg now batch (set_scan_results q st))).
Qed.

(** ** Running tasks survive the reap pass *)

Lemma d_get_eqb_key :
  forall k k' (l : list (key * entry)), key_eqb k k' = true -> d_get key_eqb k' l = d_get key_eqb k l.
Proof.
  intros k k' l Hk. induction l as [|[kk v] l IH]; simpl; [reflexivity|].
  destruct (key_eqb kk k) eqn:E1, (key_eqb kk k') eqn:E2; try reflexivity.
  - pose proof (key_eqb_trans _ _ _ E1 Hk). congruence.
  - rewrite key_eqb_sym in Hk. pose proof (key_eqb_trans _ _ _ E2 Hk). congruence.
  - exact IH.
Qed.

Lemma keeps_get_refl (R : state -> state -> Prop) : (forall s, R s s) -> keeps R get.
Proof. intros H st. exact (H st). Qed.

Lemma keeps_ret_refl {A} (R : state -> state -> Prop) (x : A) : (forall s, R s s) -> keeps R (ret x).
Proof. intros H st. exact (H st). Qed.

Lemma keeps_raise_refl {A} (R : state -> state -> Prop) e : (forall s, R s s) -> keeps R (raise (A:=A) e).
Proof. intros H st. exact (H st). Qed.

Lemma clean_one_tl :
  forall now k st,
    task_list (state_of (clean_one now k st)) = task_list st \/
    task_list (state_of (clean_one now k st)) = d_del key_eqb k (task_list st).
Proof.
  intros now k st. unfold clean_one, bind, get. cbv beta iota.
  destruct (d_get key_eqb k (task_list st)) as [e|]; [|left; reflexivity].
  destruct (e_task e) as [t|]; [|left; reflexivity].
  destruct (t_running t) as [[|]|], (t_exit_state t) as [x|]; try (left; reflexivity).
  match goal with
  | |- context [match ?p st with Ret _ _ => _ | Raise _ _ => _ end] =>
      assert (Hp : task_list (state_of (p st)) = task_list st);
      [|destruct (p st) as [u st1|ex st1]; simpl in Hp]
  end.
  - destruct (String.eqb x "Encrypted"); [|reflexivity].
    destruct k as [|f]; [reflexivity|]. unfold_monad; simpl.
    destruct (d_mem key_eqb KScan _); reflexivity.
  - unfold update_sdr, modify.
    destruct (sdr_update (device_idx e) (set_in_use false) (sdr_list st1)); simpl; [|left; exact Hp].
    destruct (sdr_update (device_idx e) (set_sdr_task None) _); simpl; [|left; exact Hp].
    right. rewrite Hp. reflexivity.
  - left. exact Hp.
Qed.

Lemma clean_blocks_loop_tl :
  forall cfg now n0 fs st, task_list (state_of (clean_blocks_loop cfg now n0 fs st)) = task_list st.
Proof.
  intros cfg now n0 fs. induction fs as [|f fs IH]; intro st; cbn [clean_blocks_loop]; unfold_monad;
    destruct (negb _); try reflexivity.
  destruct (d_get num_eqb f (temporary_block_list st)); [|reflexivity].
  destruct (Qltb _ _); rewrite IH; reflexivity.
Qed.

Section RunningTask.
Variables (k : key) (e : entry) (t : task).
Hypothesis He : e_task e = Some t.
Hypothesis Hrun : t_running t = Some true.

Definition entry_kept (st st' : state) : Prop :=
  d_get key_eqb k (task_list st) = Some e -> d_get key_eqb k (task_list st') = Some e.

Lemma entry_kept_refl : forall s, entry_kept s s.
Proof. intros s H. exact H. Qed.

Lemma entry_kept_trans : forall s1 s2 s3, entry_kept s1 s2 -> entry_kept s2 s3 -> entry_kept s1 s3.
Proof. intros s1 s2 s3 H1 H2 H. exact (H2 (H1 H)). Qed.

Lemma entry_kept_clean_one now k' : keeps entry_kept (clean_one now k').
Proof.
  intros st Hg. destruct (key_eqb k k') eqn:Ek.
  - unfold clean_one. unfold bind at 1, get at 1. cbv beta iota.
    rewrite (d_get_eqb_key _ _ _ Ek), Hg, He, Hrun.
    destruct (t_exit_state t); exact Hg.
  - destruct (clean_one_tl now k' st) as [E|E]; rewrite E; [exact Hg|].
    rewrite d_get_del_other; assumption.
Qed.

Lemma entry_kept_clean_tasks_loop now n0 ks : keeps entry_kept (clean_tasks_loop now n0 ks).
Proof.
  induction ks as [|k' ks IH]; cbn [clean_tasks_loop];
    apply (keeps_bind _ _ _ entry_kept_trans); try exact (keeps_get_refl _ entry_kept_refl);
    intros st0; destruct (negb _);
    try exact (keeps_raise_refl _ _ entry_kept_refl); try exact (keeps_ret_refl _ _ entry_kept_refl).
  apply (keeps_bind _ _ _ entry_kept_trans); [apply entry_kept_clean_one|intros _; exact IH].
Qed.

Lemma entry_kept_start_scanner : keeps entry_kept start_scanner.
Proof.
  intros st Hg. unfold start_scanner. unfold bind at 1, get at 1.
  destruct (d_mem key_eqb KScan (task_list st)) eqn:Em; [exact Hg|].
  assert (Ek : key_eqb k KScan = false).
  { destruct k; [unfold d_mem in Em; rewrite Hg in Em; discriminate|reflexivity]. }
  unfold allocate_sdr, update_sdr. unfold_monad.
  destruct (first_free (sdr_list st)) as [idx|]; simpl; [|exact Hg].
  destruct (sdr_update idx (set_in_use true) (sdr_list st)); simpl; [|exact Hg].
  destruct (sdr_update idx (set_sdr_task (Some (new_worker Scanner))) _); simpl;
    rewrite !d_get_set_other by exact Ek; exact Hg.
Qed.

End RunningTask.

(** [clean_task_list] never removes or rewrites the entry of a task whose
    [running()] is [True], whatever the rest of the pass does (including
    the exceptions it raises). *)
Theorem clean_task_list_keeps_running_tasks :
  forall cfg now st k e t,
    d_get key_eqb k (task_list st) = Some e -> e_task e = Some t -> t_running t = Some true ->
    d_get key_eqb k (task_list (state_of (clean_task_list cfg now st))) = Some e.
Proof.
  intros cfg now st k e t Hg He Hrun. revert st Hg. fold (keeps (entry_kept k e) (clean_task_list cfg now)).
  pose proof (entry_kept_trans k e) as Htr. pose proof (entry_kept_refl k e) as Hrf.
  unfold clean_task_list.
  apply (keeps_bind _ _ _ Htr); [exact (keeps_get_refl _ Hrf)|intros st0].
  apply (keeps_bind _ _ _ Htr); [exact (entry_kept_clean_tasks_loop k e t He Hrun now _ _)|intros _].
  apply (keeps_bind _ _ _ Htr); [exact (keeps_get_refl _ Hrf)|intros st1].
  apply (keeps_bind _ _ _ Htr).
  { intros st Hg. unfold entry_kept. rewrite clean_blocks_loop_tl. exact Hg. }
  intros _.
  apply (keeps_bind _ _ _ Htr); [exact (keeps_get_refl _ Hrf)|intros st2].
  destruct (d_mem key_eqb KScan (task_list st2)); [exact (keeps_ret_refl _ _ Hrf)|].
  apply (keeps_bind _ _ _ Htr).
  - intros st Hg. pose proof (allocate_check_only_state st) as E. rewrite E. exact Hg.
  - intros [x|]; [exact (entry_kept_start_scanner k e)|exact (keeps_ret_refl _ _ Hrf)].
Qed.

(** ** Registered decoders are never replaced by new detections *)

Lemma entry_kept_update_sdr k e idx f : keeps (entry_kept k e) (update_sdr idx f).
Proof.
  intros st H. unfold update_sdr. destruct (sdr_update idx f (sdr_list st)); exact H.
Qed.

Ltac kept_tac :=
  repeat (cbv zeta; match goal with
  | |- keeps (entry_kept _ _) (bind _ _) => apply (keeps_bind _ _ _ (entry_kept_trans _ _)); [|intros ?]
  | |- keeps (entry_kept _ _) get => apply (keeps_get_refl _ (entry_kept_refl _ _))
  | |- keeps (entry_kept _ _) (ret _) => apply (keeps_ret_refl _ _ (entry_kept_refl _ _))
  | |- keeps (entry_kept _ _) (raise _) => apply (keeps_raise_refl _ _ (entry_kept_refl _ _))
  | |- keeps (entry_kept _ _) (update_sdr _ _) => apply entry_kept_update_sdr
  | |- keeps (entry_kept _ _) (modify _) =>
      let st := fresh "st" in let H := fresh "H" in
      intros st H; unfold entry_kept in *; simpl;
      first [exact H | rewrite d_get_set_other by assumption; exact H
                     | rewrite d_get_del_other by assumption; exact H]
  | |- keeps (entry_kept _ _) (if ?b then _ else _) => destruct b
  | |- keeps (entry_kept _ _) (match ?x with _ => _ end) => destruct x
  end).

Lemma entry_kept_allocate_sdr k e b : keeps (entry_kept k e) (allocate_sdr b).
Proof. unfold allocate_sdr. kept_tac. Qed.

Lemma entry_kept_spacing_loop k e DRIFTY cfg freq ty ks :
  keeps (entry_kept k e) (spacing_loop DRIFTY cfg freq ty ks).
Proof.
  induction ks as [|k' ks IH]; simpl; [kept_tac|].
  destruct k' as [|[z|q]]; try exact IH. kept_tac; exact IH.
Qed.

Lemma entry_kept_start_decoder k e DRIFTY cfg now f ty :
  key_eqb k (KFreq f) = false -> keeps (entry_kept k e) (start_decoder DRIFTY cfg now f ty).
Proof.
  intro Hk. unfold start_decoder, start_decoder_rest. kept_tac;
    first [apply entry_kept_spacing_loop | apply entry_kept_allocate_sdr].
Qed.

Lemma entry_kept_stop_scanner k e : key_eqb k KScan = false -> keeps (entry_kept k e) stop_scanner.
Proof. intro Hk. unfold stop_scanner. kept_tac. Qed.

Lemma entry_kept_handle_batch f0 e VALID DRIFTY cfg now batch :
  keeps (entry_kept (KFreq f0) e) (handle_batch VALID DRIFTY cfg now batch).
Proof.
  induction batch as [|[f ty] batch IH]; simpl; [kept_tac|].
  intros st Hg. unfold bind at 1, get at 1. cbv beta iota.
  destruct (d_mem key_eqb (KFreq f) (task_list st)) eqn:Em; [exact (IH st Hg)|].
  assert (Hk : key_eqb (KFreq f0) (KFreq f) = false).
  { destruct (key_eqb (KFreq f0) (KFreq f)) eqn:E; [|reflexivity].
    unfold d_mem in Em. rewrite (d_get_eqb_key _ _ _ E), Hg in Em. discriminate. }
  destruct (negb _); [exact (IH st Hg)|].
  match goal with
  | |- context [state_of (?m st)] =>
      enough (Hm : keeps (entry_kept (KFreq f0) e) m) by exact (Hm st Hg)
  end.
  kept_tac;
    first [exact IH | apply entry_kept_allocate_sdr | apply entry_kept_start_decoder; exact Hk
          | apply entry_kept_stop_scanner; reflexivity].
Qed.

(** [handle_scan_results] never removes or replaces the registry entry of a
    frequency that is already registered: a detection on a registered
    frequency is skipped, and a new decoder is only ever registered under a
    frequency not [==] to any registered one.  This holds whatever the
    outcome, including the exceptions a batch can raise. *)
Theorem handle_scan_results_keeps_registered_decoders :
  forall VALID DRIFTY cfg now st f e,
    d_get key_eqb (KFreq f) (task_list st) = Some e ->
    d_get key_eqb (KFreq f) (task_list (state_of (handle_scan_results VALID DRIFTY cfg now st))) = Some e.
Proof.
  intros VALID DRIFTY cfg now st f e Hg. unfold handle_scan_results. unfold bind at 1, get at 1.
  cbv beta iota. destruct (scan_results st) as [|batch q]; [exact Hg|].
  unfold bind, modify.
  exact (entry_kept_handle_batch f e VALID DRIFTY cfg now batch (set_scan_results q st) Hg).
Qed.

(** ** Releasing the scanner *)

Lemma d_get_del_unique :
  forall k l, keys_unique l -> d_get key_eqb k (d_del key_eqb k l) = None.
Proof.
  intros k l. induction l as [|[kk v] l IH]; simpl; intros Hu; [reflexivity|].
  destruct Hu as [Hm Hu]. destruct (key_eqb kk k) eqn:E.
  - unfold d_mem in Hm. rewrite (d_get_eqb_key _ _ _ E).
    destruct (d_get key_eqb kk l); [discriminate|reflexivity].
  - simpl. rewrite E. exact (IH Hu).
Qed.

Lemma sdr_update_found :
  forall idx f l l', sdr_update idx f l = Some l' -> exists s, sdr_get idx l = Some s.
Proof.
  intros idx f l. induction l as [|[i s] l IH]; intros l' H; simpl in H; [discriminate|].
  unfold sdr_get; simpl. destruct (String.eqb i idx); [eexists; reflexivity|].
  destruct (sdr_update idx f l) as [l''|] eqn:E; simpl in H; [|discriminate].
  exact (IH l'' eq_refl).
Qed.

(** [stop_scanner()] on a registry with unique keys: when it returns, no
    ['SCAN'] entry is left, every other entry is unchanged, the scanner's
    device has [in_use = False] and [task = None], and no other device, the
    block list or the queue is touched. *)
Theorem stop_scanner_releases_device :
  forall st e st',
    keys_unique (task_list st) ->
    d_get key_eqb KScan (task_list st) = Some e ->
    stop_scanner st = Ret tt st' ->
    d_mem key_eqb KScan (task_list st') = false /\
    (forall k, key_eqb k KScan = false -> d_get key_eqb k (task_list st') = d_get key_eqb k (task_list st)) /\
    (exists s, sdr_get (device_idx e) (sdr_list st) = Some s /\
               sdr_get (device_idx e) (sdr_list st') = Some (set_sdr_task None (set_in_use false s))) /\
    (forall j, j <> device_idx e -> sdr_get j (sdr_list st') = sdr_get j (sdr_list st)) /\
    temporary_block_list st' = temporary_block_list st /\ scan_results st' = scan_results st.
Proof.
  intros st e st' Hu Hg Hs. unfold stop_scanner, bind, get in Hs. cbv beta iota in Hs.
  rewrite Hg in Hs. destruct (e_task e) as [t|]; [|discriminate].
  unfold update_sdr, modify in Hs.
  destruct (sdr_update (device_idx e) (set_in_use false) (sdr_list st)) as [l1|] eqn:Hu1;
    [|discriminate].
  simpl in Hs.
  destruct (sdr_update (device_idx e) (set_sdr_task None) l1) as [l2|] eqn:Hu2; [|discriminate].
  simpl in Hs. injection Hs as <-. simpl.
  split; [unfold d_mem; rewrite (d_get_del_unique _ _ Hu); reflexivity|].
  split; [intros k Hk; apply d_get_del_other; exact Hk|].
  pose proof (sdr_update_get _ _ _ _ Hu1) as G1. pose proof (sdr_update_get _ _ _ _ Hu2) as G2.
  split; [|split; [|split; reflexivity]].
  - destruct (sdr_update_found _ _ _ _ Hu1) as [s Hs]. exists s. split; [exact Hs|].
    rewrite G2, G1, String.eqb_refl, Hs. reflexivity.
  - intros j Hj. rewrite G2, G1.
    destruct (String.eqb_spec (device_idx e) j); [congruence|reflexivity].
Qed.

(** ** Allocation of a device *)

Lemma first_free_none :
  forall l, first_free l = None -> forall i s, In (i, s) l -> in_use s = true.
Proof.
  induction l as [|[i0 s0] l IH]; simpl; intros H i s Hin; [destruct Hin|].
  destruct (in_use s0) eqn:E; [|discriminate].
  destruct Hin as [Heq|Hin]; [injection Heq as <- <-; exact E|exact (IH H i s Hin)].
Qed.

Lemma sdr_update_split :
  forall idx f pre s post, ~ In idx (map fst pre) ->
    sdr_update idx f (pre ++ (idx, s) :: post) = Some (pre ++ (idx, f s) :: post).
Proof.
  intros idx f pre s post. induction pre as [|[i s0] pre IH]; simpl; intro Hni.
  - rewrite String.eqb_refl. reflexivity.
  - destruct (String.eqb_spec i idx) as [->|Hne]; [exfalso; apply Hni; left; reflexivity|].
    rewrite IH by (intro H; apply Hni; right; exact H). reflexivity.
Qed.

Lemma first_free_split :
  forall l idx, NoDup (map fst l) -> first_free l = Some idx ->
    exists pre s post, l = pre ++ (idx, s) :: post /\ ~ In idx (map fst pre) /\
      in_use s = false /\ (forall p, In p pre -> in_use (snd p) = true).
Proof.
  induction l as [|[i s] l IH]; simpl; intros idx Hnd H; [discriminate|].
  inversion Hnd as [|? ? Hni Hnd']; subst.
  destruct (in_use s) eqn:E.
  - destruct (IH idx Hnd' H) as [pre [s' [post [Hl [Hni' [Hs' Hpre]]]]]].
    exists ((i, s) :: pre), s', post. split; [rewrite Hl; reflexivity|].
    split; [|split; [exact Hs'|]].
    + simpl. intros [Heq|Hin]; [|exact (Hni' Hin)].
      apply Hni. rewrite Hl, map_app, Heq. apply in_or_app. right. left. reflexivity.
    + intros p [<-|Hin]; [exact E|exact (Hpre p Hin)].
  - injection H as <-. exists [], s, l. split; [reflexivity|].
    split; [intros []|]. split; [exact E|intros p []].
Qed.

(** [allocate_sdr(check_only=True)] returns the first free device in the
    order of [autorx.sdr_list] and changes nothing.  [allocate_sdr()] on a
    pool whose device names are distinct returns [None], leaving the state
    alone, exactly when every device is in use; otherwise it returns the
    first free device (every device before it is in use) and sets [in_use]
    on that device only. *)
Theorem allocate_sdr_first_free :
  forall st,
    NoDup (map fst (sdr_list st)) ->
    allocate_sdr true st = Ret (first_free (sdr_list st)) st /\
    match first_free (sdr_list st) with
    | None =>
        allocate_sdr false st = Ret None st /\
        (forall i s, In (i, s) (sdr_list st) -> in_use s = true)
    | Some idx =>
        exists pre s post,
          sdr_list st = pre ++ (idx, s) :: post /\ in_use s = false /\
          (forall p, In p pre -> in_use (snd p) = true) /\
          allocate_sdr false st =
            Ret (Some idx) (set_sdr_list (pre ++ (idx, set_in_use true s) :: post) st)
    end.
Proof.
  intros st Hnd. unfold allocate_sdr, bind, get, ret. cbv beta iota.
  destruct (first_free (sdr_list st)) as [idx|] eqn:Hf.
  - split; [reflexivity|].
    destruct (first_free_split _ _ Hnd Hf) as [pre [s [post [Hl [Hni [Hs Hpre]]]]]].
    exists pre, s, post. split; [exact Hl|]. split; [exact Hs|]. split; [exact Hpre|].
    unfold update_sdr. rewrite Hl, (sdr_update_split _ _ _ _ _ Hni). reflexivity.
  - split; [reflexivity|]. split; [reflexivity|]. exact (first_free_none _ Hf).
Qed.

(** ** Starting and stopping the scanner *)

Lemma d_set_absent :
  forall k (v : entry) l, d_get key_eqb k l = None -> d_set key_eqb k v l = l ++ [(k, v)].
Proof.
  intros k v l. induction l as [|[kk v'] l IH]; simpl; intro H; [reflexivity|].
  destruct (key_eqb kk k); [discriminate|]. rewrite (IH H). reflexivity.
Qed.

Lemma d_set_last :
  forall k (v v2 : entry) l, d_get key_eqb k l = None ->
    d_set key_eqb k v2 (l ++ [(k, v)]) = l ++ [(k, v2)].
Proof.
  intros k v v2 l. induction l as [|[kk v'] l IH]; simpl; intro H.
  - rewrite key_eqb_refl. reflexivity.
  - destruct (key_eqb kk k); [discriminate|]. rewrite (IH H). reflexivity.
Qed.

Lemma d_get_last :
  forall k (v : entry) l, d_get key_eqb k l = None -> d_get key_eqb k (l ++ [(k, v)]) = Some v.
Proof.
  intros k v l. induction l as [|[kk v'] l IH]; simpl; intro H.
  - rewrite key_eqb_refl. reflexivity.
  - destruct (key_eqb kk k); [discriminate|]. exact (IH H).
Qed.

Lemma d_del_last :
  forall k (v : entry) l, d_get key_eqb k l = None -> d_del key_eqb k (l ++ [(k, v)]) = l.
Proof.
  intros k v l. induction l as [|[kk v'] l IH]; simpl; intro H.
  - rewrite key_eqb_refl. reflexivity.
  - destruct (key_eqb kk k); [discriminate|]. rewrite (IH H). reflexivity.
Qed.

(** [start_scanner()] followed by [stop_scanner()] gives back the state it
    started from, when no scanner is registered, the device names are
    distinct and every free device has [task = None]: the scanner's entry is
    appended to the registry and popped again, its device is marked in use
    and then released. *)
Theorem start_stop_scanner_round_trip :
  forall st,
    d_mem key_eqb KScan (task_list st) = false ->
    NoDup (map fst (sdr_list st)) ->
    (forall i s, In (i, s) (sdr_list st) -> in_use s = false -> sdr_task s = None) ->
    (start_scanner ;; stop_scanner) st = Ret tt st.
Proof.
  intros st Hm Hnd Hfree.
  assert (Hn : d_get key_eqb KScan (task_list st) = None)
    by (unfold d_mem in Hm; destruct (d_get key_eqb KScan (task_list st)); [discriminate|reflexivity]).
  destruct (allocate_sdr_first_free st Hnd) as [_ Ha].
  unfold bind at 1. unfold start_scanner. unfold bind at 1, get at 1. cbv beta iota.
  rewrite Hm. unfold bind at 1.
  destruct (first_free (sdr_list st)) as [idx|] eqn:Hf.
  - destruct Ha as [pre [s [post [Hl [Hs [Hpre Ha]]]]]]. rewrite Ha. cbv beta iota.
    assert (Hni : ~ In idx (map fst pre)).
    { destruct (first_free_split _ _ Hnd Hf) as [pre' [s' [post' [Hl' [Hni' _]]]]].
      rewrite Hl in Hl'. intro Hin. rewrite Hl in Hnd.
      rewrite map_app in Hnd. simpl in Hnd. apply NoDup_remove_2 in Hnd. apply Hnd.
      apply in_or_app. left. exact Hin. }
    assert (Ht : sdr_task s = None) by (apply (Hfree idx s); [rewrite Hl; apply in_or_app; right; left; reflexivity|exact Hs]).
    unfold bind, modify, update_sdr, stop_scanner, get. simpl.
    rewrite (d_set_absent _ _ _ Hn), (d_set_last _ _ _ _ Hn), (sdr_update_split _ _ _ _ _ Hni).
    unfold bind, get, modify, update_sdr, ret, raise. simpl.
    rewrite (d_get_last _ _ _ Hn). simpl.
    rewrite (sdr_update_split _ _ _ _ _ Hni). simpl.
    rewrite (sdr_update_split _ _ _ _ _ Hni). simpl.
    rewrite (d_del_last _ _ _ Hn).
    destruct s as [u tk g p b]; simpl in Hs, Ht; subst u tk.
    unfold set_sdr_task, set_in_use; simpl. rewrite <- Hl. destruct st; reflexivity.
  - destruct Ha as [Ha _]. rewrite Ha. unfold ret, stop_scanner, bind, get. cbv beta iota.
    rewrite Hn. reflexivity.
Qed.

Lemma start_scanner_settles : forall st a st', start_scanner st = Ret a st' -> start_scanner st' = Ret tt st'.
Proof.
  intros st a st' H. unfold start_scanner, bind, get in H. cbv beta iota in H.
  destruct (d_mem key_eqb KScan (task_list st)) eqn:Hm.
  - injection H as _ <-. unfold start_scanner, bind, get. cbv beta iota. rewrite Hm. reflexivity.
  - unfold allocate_sdr, bind, get in H. cbv beta iota in H.
    destruct (first_free (sdr_list st)) as [idx|] eqn:Hf.
    + unfold update_sdr, ret, modify in H.
      destruct (sdr_update idx (set_in_use true) (sdr_list st)); [|discriminate].
      simpl in H.
      destruct (sdr_update idx _ _); [|discriminate]. injection H as _ <-.
      unfold start_scanner, bind, get. cbv beta iota. simpl.
      unfold d_mem. rewrite (d_get_set_same key_eqb KScan _ _ (key_eqb_refl KScan)). reflexivity.
    + unfold ret in H. injection H as _ <-.
      unfold start_scanner, allocate_sdr, bind, get. cbv beta iota. rewrite Hm, Hf. reflexivity.
Qed.

(** Calling [start_scanner()] twice has the effect of calling it once: after
    the first call either a scanner is registered or no device is free. *)
Theorem start_scanner_idempotent :
  forall st, (start_scanner ;; start_scanner) st = start_scanner st.
Proof.
  intro st. unfold bind at 1. destruct (start_scanner st) as [a st'|ex st'] eqn:E; [|reflexivity].
  destruct a. exact (start_scanner_settles _ _ _ E).
Qed.

(** ** A reap pass with nothing to reap *)

Lemma bind_get {B} (k : state -> M B) st : bind get k st = k st st.
Proof. reflexivity. Qed.

Lemma bind_ret_l {A B} (m : M A) (k : A -> M B) st a st' :
  m st = Ret a st' -> bind m k st = k a st'.
Proof. intro H. unfold bind. rewrite H. reflexivity. Qed.

Lemma d_get_of_key {K V} (eqb : K -> K -> bool) :
  (forall x, eqb x x = true) ->
  forall k (l : list (K * V)), In k (map fst l) -> exists v, d_get eqb k l = Some v.
Proof.
  intros Hr k l. induction l as [|[k' v'] l IH]; simpl; intro H; [destruct H|].
  destruct (eqb k' k) eqn:E; [eexists; reflexivity|].
  destruct H as [<-|H]; [rewrite Hr in E; discriminate|exact (IH H)].
Qed.

Lemma clean_one_idle :
  forall now k st,
    (forall k' e, In (k', e) (task_list st) ->
       query_fails e \/ exists t, e_task e = Some t /\ t_running t = Some true) ->
    clean_one now k st = Ret tt st.
Proof.
  intros now k st Hall. unfold clean_one. rewrite bind_get.
  destruct (d_get key_eqb k (task_list st)) as [e|] eqn:Hg; [|reflexivity].
  destruct (d_get_in _ _ _ _ Hg) as [k' [Hin _]].
  destruct (Hall k' e Hin) as [Hq|[t [He Hr]]].
  - unfold query_fails in Hq. destruct (e_task e) as [t|]; [|reflexivity].
    destruct Hq as [Hq|Hq]; rewrite Hq; [reflexivity|]. destruct (t_running t); reflexivity.
  - rewrite He, Hr. destruct (t_exit_state t); reflexivity.
Qed.

(** When every registered task is running (or its state query raises) and
    no block entry has expired, [clean_task_list()] removes nothing, raises
    nothing, and amounts to [start_scanner()]. *)
Theorem clean_task_list_nothing_to_reap :
  forall cfg now st,
    (forall k e, In (k, e) (task_list st) ->
       query_fails e \/ exists t, e_task e = Some t /\ t_running t = Some true) ->
    (forall f b, In (f, b) (temporary_block_list st) -> Qltb b (now - block_ttl cfg) = false) ->
    clean_task_list cfg now st = start_scanner st.
Proof.
  intros cfg now st Hall Hbl.
  assert (Hloop : forall ks, clean_tasks_loop now (List.length (task_list st)) ks st = Ret tt st).
  { intro ks. induction ks as [|k ks IH]; cbn [clean_tasks_loop]; rewrite bind_get;
      rewrite Nat.eqb_refl; simpl; [reflexivity|].
    rewrite (bind_ret_l _ _ _ _ _ (clean_one_idle now k st Hall)). exact IH. }
  assert (Hblk : forall fs, incl fs (map fst (temporary_block_list st)) ->
            clean_blocks_loop cfg now (List.length (temporary_block_list st)) fs st = Ret tt st).
  { intro fs. induction fs as [|f fs IH]; intro Hinc; cbn [clean_blocks_loop]; rewrite bind_get;
      rewrite Nat.eqb_refl; simpl; [reflexivity|].
    destruct (d_get_of_key num_eqb (fun x => Qeq_bool_refl' (num_val x)) f
                (temporary_block_list st) (Hinc f (or_introl eq_refl))) as [b Hb].
    destruct (d_get_in _ _ _ _ Hb) as [f' [Hin _]].
    rewrite Hb, (Hbl f' b Hin). unfold ret, bind.
    apply IH. intros x Hx. apply Hinc. right. exact Hx. }
  unfold clean_task_list. rewrite bind_get.
  rewrite (bind_ret_l _ _ _ _ _ (Hloop _)), bind_get.
  rewrite (bind_ret_l _ _ _ _ _ (Hblk _ (incl_refl _))), bind_get.
  destruct (d_mem key_eqb KScan (task_list st)) eqn:Hm.
  { unfold start_scanner. rewrite bind_get, Hm. reflexivity. }
  assert (Ht : allocate_sdr true st = Ret (first_free (sdr_list st)) st)
    by (unfold allocate_sdr; rewrite bind_get; destruct (first_free (sdr_list st)); reflexivity).
  rewrite (bind_ret_l _ _ _ _ _ Ht).
  destruct (first_free (sdr_list st)) as [idx|] eqn:Hf; [reflexivity|].
  unfold start_scanner, allocate_sdr, bind, get. cbv beta iota. rewrite Hm, Hf. reflexivity.
Qed.

(** ** The serial-number check *)

Lemma list_ascii_of_string_app :
  forall s r, list_ascii_of_string (s ++ r) = list_ascii_of_string s ++ list_ascii_of_string r.
Proof. induction s as [|c s IH]; intro r; simpl; [reflexivity|rewrite IH; reflexivity]. Qed.

Lemma vaisala_callsign_valid_app :
  forall s r, vaisala_callsign_valid s = true -> vaisala_callsign_valid (s ++ r) = true.
Proof.
  intros s r. unfold vaisala_callsign_valid. rewrite list_ascii_of_string_app.
  generalize (list_ascii_of_string r). intro lr.
  destruct (list_ascii_of_string s) as [|c1 [|c2 [|c3 [|c4 [|c5 [|c6 [|c7 [|c8 l]]]]]]]];
    simpl; try discriminate; exact (fun H => H).
Qed.

Lemma dfm_callsign_valid_app :
  forall s r, dfm_callsign_valid s = true -> dfm_callsign_valid (s ++ r) = true.
Proof.
  intros s r. unfold dfm_callsign_valid. rewrite list_ascii_of_string_app.
  generalize (list_ascii_of_string r). intro lr.
  destruct (list_ascii_of_string s)
    as [|c1 [|c2 [|c3 [|c4 [|c5 [|c6 [|d1 [|d2 [|d3 [|d4 [|d5 [|d6 l]]]]]]]]]]]];
    simpl; try discriminate; exact (fun H => H).
Qed.

(** The serial checks use [re.match], which anchors only at the start of
    the id: appending any text to an id that matches the Vaisala or the DFM
    pattern never changes the filter's verdict. *)
Theorem telemetry_filter_serial_prefix :
  forall (straight_distance : Q * Q * Q -> Q * Q * Q -> Q) cfg t r,
    vaisala_callsign_valid (tm_id t) = true \/ dfm_callsign_valid (tm_id t) = true ->
    telemetry_filter straight_distance cfg (with_id t (tm_id t ++ r)) =
    telemetry_filter straight_distance cfg t.
Proof.
  intros d cfg t r Hv. unfold telemetry_filter, with_id; simpl.
  assert (Hs : forall i, vaisala_callsign_valid i = true \/ dfm_callsign_valid i = true ->
                 (vaisala_callsign_valid i || dfm_callsign_valid i
                  || str_contains "M10" (tm_type t) || str_contains "iMet" (tm_type t))%bool = true).
  { intros i [H|H]; rewrite H; [reflexivity|]. rewrite orb_true_r. reflexivity. }
  rewrite (Hs (tm_id t) Hv), Hs; [reflexivity|].
  destruct Hv as [H|H]; [left; apply vaisala_callsign_valid_app|right; apply dfm_callsign_valid_app];
    exact H.
Qed.

(** ** Handing the scanner's device to a decoder *)

Lemma first_free_update_keep :
  forall idx f l l', (forall s, in_use (f s) = in_use s) ->
    sdr_update idx f l = Some l' -> first_free l' = first_free l.
Proof.
  intros idx f l. induction l as [|[i s] l IH]; intros l' Hf H; simpl in H; [discriminate|].
  destruct (String.eqb i idx).
  - injection H as <-. simpl. rewrite Hf. reflexivity.
  - destruct (sdr_update idx f l) as [l''|] eqn:E; simpl in H; [|discriminate].
    injection H as <-. simpl. rewrite (IH l'' Hf eq_refl). reflexivity.
Qed.

Lemma first_free_release :
  forall idx f l l', first_free l = None -> (forall s, in_use (f s) = false) ->
    sdr_update idx f l = Some l' -> first_free l' = Some idx.
Proof.
  intros idx f l. induction l as [|[i s] l IH]; intros l' Hn Hf H; simpl in H, Hn; [discriminate|].
  destruct (in_use s) eqn:Hs; [|discriminate].
  destruct (String.eqb_spec i idx) as [->|Hne].
  - injection H as <-. simpl. rewrite Hf. reflexivity.
  - destruct (sdr_update idx f l) as [l''|] eqn:E; simpl in H; [|discriminate].
    injection H as <-. simpl. rewrite Hs. exact (IH l'' Hn Hf eq_refl).
Qed.

Lemma spacing_loop_pass :
  forall DRIFTY cfg freq ty ks st,
    (forall z, In (KFreq (PyInt z)) ks ->
       exists e t s, d_get key_eqb (KFreq (PyInt z)) (task_list st) = Some e /\
         e_task e = Some t /\ task_sonde_type t = Some s /\
         ((str_in s DRIFTY && String.eqb s ty)%bool = false \/
          decoder_spacing_limit cfg <= Qabs (inject_Z z - num_val freq))) ->
    spacing_loop DRIFTY cfg freq ty ks st = Ret false st.
Proof.
  intros DRIFTY cfg freq ty ks st. induction ks as [|k ks IH]; intro H; [reflexivity|].
  assert (H' : forall z, In (KFreq (PyInt z)) ks -> exists e t s,
             d_get key_eqb (KFreq (PyInt z)) (task_list st) = Some e /\
             e_task e = Some t /\ task_sonde_type t = Some s /\
             ((str_in s DRIFTY && String.eqb s ty)%bool = false \/
              decoder_spacing_limit cfg <= Qabs (inject_Z z - num_val freq)))
    by (intros z Hz; apply H; right; exact Hz).
  destruct k as [|[z|q]]; cbn -[Qabs Qltb]; try exact (IH H').
  cbv beta iota.
  destruct (H z (or_introl eq_refl)) as [e [t [s [Hg [Ht [Hs Hc]]]]]].
  rewrite Hg, Ht, Hs.
  destruct Hc as [Hc|Hc]; [rewrite Hc; exact (IH H')|].
  destruct (str_in s DRIFTY && String.eqb s ty)%bool; [|exact (IH H')].
  assert (Hq : Qltb (Qabs (inject_Z z - num_val freq)) (decoder_spacing_limit cfg) = false)
    by (apply Qltb_false; exact Hc).
  rewrite Hq. exact (IH H').
Qed.

Ltac proj_simpl :=
  unfold set_sdr_list, set_task_list, set_block_list, set_scan_results;
  cbn [sdr_list task_list temporary_block_list scan_results set_sdr_list set_task_list
       set_block_list set_scan_results device_idx e_task].

(** [handle_scan_results()] with a full pool and a running scanner: a new
    detection of a supported type without the inversion marker, on a
    frequency with no block entry, stops the scanner and gives its device to
    a new decoder, when no decoder under an [int] key is a drifty decoder of
    the same type within [decoder_spacing_limit].  The batch is taken off the
    queue, the ['SCAN'] entry is gone, the frequency is registered with the
    scanner's device, every other entry and device is unchanged, and that
    device is in use and bound to the decoder. *)
Theorem handle_scan_results_preempts_scanner :
  forall VALID DRIFTY cfg now st f ty q e w,
    inv st -> keys_unique (task_list st) ->
    scan_results st = [(f, ty)] :: q ->
    d_mem key_eqb (KFreq f) (task_list st) = false ->
    strip_inverted ty = ty -> str_in ty VALID = true ->
    first_free (sdr_list st) = None ->
    d_get key_eqb KScan (task_list st) = Some e -> e_task e = Some w ->
    d_get num_eqb f (temporary_block_list st) = None ->
    d_get String.eqb ty (experimental_decoders cfg) <> None ->
    (forall z, In (KFreq (PyInt z)) (map fst (task_list st)) ->
       exists e' t s, d_get key_eqb (KFreq (PyInt z)) (task_list st) = Some e' /\
         e_task e' = Some t /\ task_sonde_type t = Some s /\
         ((str_in s DRIFTY && String.eqb s ty)%bool = false \/
          decoder_spacing_limit cfg <= Qabs (inject_Z z - num_val f))) ->
    exists st',
      handle_scan_results VALID DRIFTY cfg now st = Ret tt st' /\
      scan_results st' = q /\
      temporary_block_list st' = temporary_block_list st /\
      d_mem key_eqb KScan (task_list st') = false /\
      d_get key_eqb (KFreq f) (task_list st') =
        Some (mkEntry (device_idx e) (Some (new_worker (Decoder ty f)))) /\
      (forall k, key_eqb k KScan = false -> key_eqb k (KFreq f) = false ->
         d_get key_eqb k (task_list st') = d_get key_eqb k (task_list st)) /\
      (exists s, sdr_get (device_idx e) (sdr_list st') = Some s /\ in_use s = true /\
         sdr_task s = Some (new_worker (Decoder ty f))) /\
      (forall j, j <> device_idx e -> sdr_get j (sdr_list st') = sdr_get j (sdr_list st)).
Proof.
  intros VALID DRIFTY cfg now st f ty q e w Hinv Hku Hq Hmem Hstrip Hval Hff Hscan Hw Hbl Hexp Hsp.
  destruct Hinv as [_ [Hdev _]].
  destruct (d_get_in _ _ _ _ Hscan) as [k0 [Hin0 _]].
  destruct (Hdev k0 e Hin0) as [s0 [Hs0 _]].
  pose proof (sdr_get_in _ _ _ Hs0) as Hi0.
  destruct st as [sdrs tl bl sq]; cbn [task_list sdr_list temporary_block_list scan_results] in *. subst sq.
  destruct e as [idx et]; cbn [device_idx e_task] in *.
  destruct (sdr_update_some idx (set_in_use false) sdrs Hi0) as [l1 E1].
  assert (Hi1 : In idx (map fst l1)) by (rewrite (sdr_update_keys _ _ _ _ E1); exact Hi0).
  destruct (sdr_update_some idx (set_sdr_task None) l1 Hi1) as [l2 E2].
  assert (Hi2 : In idx (map fst l2)) by (rewrite (sdr_update_keys _ _ _ _ E2); exact Hi1).
  destruct (sdr_update_some idx (set_in_use true) l2 Hi2) as [l3 E3].
  assert (Hi3 : In idx (map fst l3)) by (rewrite (sdr_update_keys _ _ _ _ E3); exact Hi2).
  destruct (sdr_update_some idx (set_in_use true) l3 Hi3) as [l4 E4].
  assert (Hi4 : In idx (map fst l4)) by (rewrite (sdr_update_keys _ _ _ _ E4); exact Hi3).
  set (w' := new_worker (Decoder ty f)).
  destruct (sdr_update_some idx (set_sdr_task (Some w')) l4 Hi4) as [l5 E5].
  assert (Hf1 : first_free l1 = Some idx) by (exact (first_free_release idx (set_in_use false) sdrs l1 Hff (fun _ => eq_refl) E1)).
  assert (Hf2 : first_free l2 = Some idx)
    by (rewrite (first_free_update_keep idx (set_sdr_task None) l1 l2 (fun _ => eq_refl) E2); exact Hf1).
  destruct (d_get String.eqb ty (experimental_decoders cfg)) as [b|] eqn:Hx; [|congruence].
  unfold handle_scan_results. rewrite bind_get. simpl.
  unfold bind at 1, modify at 1. cbv beta iota. cbn [handle_batch].
  rewrite bind_get. simpl. rewrite Hmem, Hstrip, Hval. simpl.
  assert (HmS : d_mem key_eqb KScan tl = true) by (unfold d_mem; rewrite Hscan; reflexivity).
  set (tl2 := d_set key_eqb (KFreq f) (mkEntry idx (Some w'))
                (d_set key_eqb (KFreq f) (mkEntry idx None) (d_del key_eqb KScan tl))).
  exists (mkState l5 tl2 bl q). split.
  - unfold stop_scanner, start_decoder, start_decoder_rest, allocate_sdr, set_scan_results,
      update_sdr, bind, get, ret, modify, raise.
    cbv beta iota. simpl. rewrite Hff. simpl. rewrite HmS. simpl. rewrite Hscan, Hw.
    proj_simpl.
    rewrite E1.
    proj_simpl.
    rewrite E2.
    proj_simpl.
    rewrite Hbl, spacing_loop_pass.
    2:{ proj_simpl. intros z Hz. apply in_map_iff in Hz. destruct Hz as [[k v] [Hk Hin]].
        simpl in Hk. subst k. apply d_del_in in Hin.
        rewrite d_get_del_other by reflexivity. exact (Hsp z (in_map fst _ _ Hin)). }
    cbv beta iota; proj_simpl. rewrite Hf2. cbv beta iota; proj_simpl.
    rewrite E3. cbv beta iota; proj_simpl. rewrite E4. cbv beta iota; proj_simpl.
    rewrite Hx. cbv beta iota; proj_simpl. unfold w' in E5. rewrite E5. cbv beta iota; proj_simpl.
    reflexivity.
  - cbn [sdr_list task_list temporary_block_list scan_results].
    split; [reflexivity|]. split; [reflexivity|]. split.
    { unfold d_mem, tl2. rewrite !d_get_set_other by reflexivity.
      rewrite (d_get_del_unique _ _ Hku). reflexivity. }
    split; [apply d_get_set_same, key_eqb_refl|]. split.
    { intros k H1 H2. unfold tl2. rewrite !d_get_set_other by exact H2.
      apply d_get_del_other. exact H1. }
    split.
    + rewrite (sdr_update_get _ _ _ _ E5), String.eqb_refl, (sdr_update_get _ _ _ _ E4),
        String.eqb_refl, (sdr_update_get _ _ _ _ E3), String.eqb_refl,
        (sdr_update_get _ _ _ _ E2), String.eqb_refl, (sdr_update_get _ _ _ _ E1),
        String.eqb_refl, Hs0.
      simpl. eexists. split; [reflexivity|]. split; reflexivity.
    + intros j Hj. assert (Hn : String.eqb idx j = false)
        by (destruct (String.eqb_spec idx j); [congruence|reflexivity]).
      rewrite (sdr_update_get _ _ _ _ E5), Hn, (sdr_update_get _ _ _ _ E4), Hn,
        (sdr_update_get _ _ _ _ E3), Hn, (sdr_update_get _ _ _ _ E2), Hn,
        (sdr_update_get _ _ _ _ E1), Hn.
      reflexivity.
Qed.

(** ** Instances of the properties above *)

Lemma clean_task_list_keeps_running_tasks_witness :
  d_get key_eqb KScan (task_list (state_of (clean_task_list cfg_example 1000 st_encrypted))) =
    Some (mkEntry "0" (Some scanner_running)).
Proof.
  apply (clean_task_list_keeps_running_tasks cfg_example 1000 st_encrypted KScan
           (mkEntry "0" (Some scanner_running)) scanner_running); reflexivity.
Defined.

Lemma handle_scan_results_keeps_registered_decoders_witness :
  let st := mkState [("0"%string, sdr_example true)]
              [(KFreq (PyFloat 401500000),
                mkEntry "0" (Some (new_worker (Decoder "RS41" (PyFloat 401500000)))))] []
              [[(PyInt 401500000, "RS41"%string)]] in
  d_get key_eqb (KFreq (PyFloat 401500000))
    (task_list (state_of (handle_scan_results VALID_example DRIFTY_example cfg_example 5 st))) =
  Some (mkEntry "0" (Some (new_worker (Decoder "RS41" (PyFloat 401500000))))).
Proof.
  intro st. apply handle_scan_results_keeps_registered_decoders. reflexivity.
Defined.

Lemma stop_scanner_releases_device_witness :
  let st' := state_of (stop_scanner st_encrypted) in
  d_mem key_eqb KScan (task_list st') = false /\
  (forall j, j <> "0"%string -> sdr_get j (sdr_list st') = sdr_get j (sdr_list st_encrypted)).
Proof.
  intro st'.
  destruct (stop_scanner_releases_device st_encrypted (mkEntry "0" (Some scanner_running)) st')
    as [H1 [_ [_ [H4 _]]]].
  - vm_compute. repeat split.
  - reflexivity.
  - vm_compute. reflexivity.
  - split; [exact H1|exact H4].
Defined.

Lemma allocate_sdr_first_free_witness :
  allocate_sdr true st_drifty = Ret (Some "1"%string) st_drifty /\
  exists pre s post,
    sdr_list st_drifty = pre ++ ("1"%string, s) :: post /\ in_use s = false /\
    allocate_sdr false st_drifty =
      Ret (Some "1"%string) (set_sdr_list (pre ++ ("1"%string, set_in_use true s) :: post) st_drifty).
Proof.
  assert (Hnd : NoDup (map fst (sdr_list st_drifty))).
  { constructor; [simpl; intros [H|[]]; discriminate|constructor; [intros []|constructor]]. }
  destruct (allocate_sdr_first_free st_drifty Hnd) as [H1 H2].
  change (first_free (sdr_list st_drifty)) with (Some "1"%string) in H1, H2.
  destruct H2 as [pre [s [post [Hl [Hs [_ Ha]]]]]].
  split; [exact H1|]. exists pre, s, post. split; [exact Hl|]. split; [exact Hs|exact Ha].
Defined.

Lemma start_stop_scanner_round_trip_witness :
  (start_scanner ;; stop_scanner) st_drifty = Ret tt st_drifty.
Proof.
  apply start_stop_scanner_round_trip.
  - reflexivity.
  - constructor; [simpl; intros [H|[]]; discriminate|constructor; [intros []|constructor]].
  - intros i s Hin Hu. simpl in Hin. destruct Hin as [H|[H|[]]]; injection H as <- <-;
      [discriminate Hu|reflexivity].
Defined.

Lemma clean_task_list_nothing_to_reap_witness :
  clean_task_list cfg_example 100 st_drifty = start_scanner st_drifty.
Proof.
  apply clean_task_list_nothing_to_reap.
  - intros k e [H|[]]. injection H as <- <-. right.
    exists (new_worker (Decoder "RS92" (PyInt 401500000))). split; reflexivity.
  - intros f b [H|[]]. injection H as <- <-. vm_compute. reflexivity.
Defined.

Lemma telemetry_filter_serial_prefix_witness :
  let t := mkTelemetry "S1234567" 60 25 1000 (Some 8%Z) "RS41" in
  telemetry_filter (fun _ _ => 0) cfg_example (with_id t (tm_id t ++ "-X")) =
  telemetry_filter (fun _ _ => 0) cfg_example t.
Proof.
  intro t. apply telemetry_filter_serial_prefix. left. reflexivity.
Defined.

Lemma handle_scan_results_preempts_scanner_witness :
  exists st',
    handle_scan_results VALID_example DRIFTY_example cfg_example 5 (st_one_sdr_scanning "RS41") =
      Ret tt st' /\
    d_mem key_eqb KScan (task_list st') = false.
Proof.
  destruct (handle_scan_results_preempts_scanner VALID_example DRIFTY_example cfg_example 5
              (st_one_sdr_scanning "RS41") (PyFloat 401500000) "RS41" []
              (mkEntry "0" (Some scanner_running)) scanner_running)
    as [st' [H1 [_ [_ [H4 _]]]]].
  - split; [constructor; [intros []|constructor]|].
    split; [|constructor; [intros []|constructor]].
    intros k e [H|[]]. injection H as <- <-. exists (sdr_example true). split; reflexivity.
  - vm_compute. repeat split.
  - reflexivity.
  - reflexivity.
  - reflexivity.
  - reflexivity.
  - reflexivity.
  - reflexivity.
  - reflexivity.
  - reflexivity.
  - discriminate.
  - intros z [H|[]]. discriminate.
  - exists st'. split; [exact H1|exact H4].
Defined.
